(** * Host augmentations of the Angular Vite compiler plugin

    A shallow embedding of
    [packages/angular/plugins/angular-vite-compiler/host.ts]:
    [augmentProgramWithVersioning], [augmentHostWithDependencyCollection],
    [augmentHostWithCaching], [augmentHostWithNgcc] and the private
    [augmentResolveModuleNames].

    The augmentations replace methods of a TypeScript [CompilerHost] (or
    [Program]) by closures that call the previous method.  The embedding keeps
    that shape: a host is a record of operations, an augmentation maps a host
    to the host with one field replaced, and an operation is a computation in
    a state-and-exception monad over a [World] holding

    - the state behind the opaque collaborators (base host, the [typescript]
      library, the ngcc processor), of an arbitrary type [Ext];
    - the heap of [SourceFile] objects, addressed by object identity;
    - the [dependencies] map and the [cache] map handed to the augmentations;
    - a trace of every call that crosses the boundary to a collaborator,
      with its arguments and its outcome.

    A JavaScript exception is an outcome [Thrown]; the state reached when it
    was raised stays as it is, as in JavaScript.  The source has no
    [try]/[catch], so an exception of a collaborator ends the running
    operation.

    The [Map] objects are passed to the augmentations by reference and
    captured by the closures; the world holds the one [dependencies] map and
    the one [cache] map of a compilation, and the collaborators, which are
    given neither, cannot reach them. *)

From Stdlib Require Import Ascii.
From stdpp Require Import base option list gmap strings.

#[local] Set Warnings "-clear-no-such-hyp".

(** ** Values of the TypeScript API *)

(** [ts.ResolvedModule]; [resolvedFileName] is the only field read here. *)
Record ResolvedModule := {
  resolvedFileName : string;
  isExternalLibraryImport : bool;
}.

(** [ts.ResolvedTypeReferenceDirective]. *)
Record ResolvedTypeReferenceDirective := {
  primary : bool;
  typeResolvedFileName : option string;
}.

(** [ts.ResolvedModuleWithFailedLookupLocations], the result of
    [ts.resolveModuleName]. *)
Record ResolvedModuleWithFailedLookupLocations := {
  resolvedModule : option ResolvedModule;
  failedLookupLocations : list string;
}.

(** [ts.ResolvedTypeReferenceDirectiveWithFailedLookupLocations], the result
    of [ts.resolveTypeReferenceDirective]. *)
Record ResolvedTypeReferenceDirectiveWithFailedLookupLocations := {
  resolvedTypeReferenceDirective : option ResolvedTypeReferenceDirective;
  typeFailedLookupLocations : list string;
}.

(** The second argument of [NgccProcessor.processModule]:
    [ts.ResolvedModule | ts.ResolvedTypeReferenceDirective]. *)
Definition Resolution : Type := ResolvedModule + ResolvedTypeReferenceDirective.

(** A [SourceFile] object: its [text] and the [version] the versioner
    attaches ([undefined] is [None]). *)
Record SourceFile := {
  text : string;
  version : option string;
}.

(** Identity of a [SourceFile] object. *)
Definition handle : Type := nat.

(** [result[0]] on an array of nullable results: [undefined] when the array
    is empty. *)
Definition first {A} (result : list (option A)) : option A :=
  match result with
  | [] => None
  | r :: _ => r
  end.

(** JavaScript truthiness of an optional boolean argument. *)
Definition truthy (flag : option bool) : bool :=
  match flag with
  | Some true => true
  | _ => false
  end.

(** The outcome of a call: a returned value or a thrown exception. *)
Inductive outcome (Exn A : Type) : Type :=
| Returned (a : A)
| Thrown (e : Exn).
Arguments Returned {Exn A} a.
Arguments Thrown {Exn A} e.

Section Host.

(** Opaque types of the surrounding APIs: the state behind the collaborators,
    exception values, [ts.CompilerOptions], [ts.ResolvedProjectReference],
    [ts.ModuleResolutionCache], the [onError] callback and whatever further
    arguments a caller passes ([...parameters]).  [ts.ScriptTarget] is a
    numeric enum. *)
Context {Ext Exn CompilerOptions ResolvedProjectReference
         ModuleResolutionCache OnError Extra : Type}.

Definition ScriptTarget : Type := nat.

(** The arguments of [resolveModuleNames] after [containingFile]. *)
Record ModuleRest := {
  reusedNames : option (list string);
  redirectedReference : option ResolvedProjectReference;
  options : CompilerOptions;
  moreArguments : Extra;
}.

(** The arguments of [resolveTypeReferenceDirectives] after
    [containingFile]. *)
Record TypeRefRest := {
  typeRedirectedReference : option ResolvedProjectReference;
  typeOptions : CompilerOptions;
  typeMoreArguments : Extra;
}.

(** ** Calls to collaborators *)

(** Every call that leaves this file, with its arguments and its outcome.
    [EvTsResolveTypeReferenceDirective] has no cache argument: the source
    calls [ts.resolveTypeReferenceDirective] with five arguments ([name],
    [containingFile], [options], [host], [redirectedReference]).  The [host]
    argument of the two [ts] functions is the host itself; what they read
    through it is part of [Ext]. *)
Inductive Event :=
| EvGetSourceFiles (parameters : Extra)
    (reply : outcome Exn (list handle))
| EvResolveModuleNames (moduleNames : list string) (containingFile : string)
    (parameters : ModuleRest)
    (reply : outcome Exn (list (option ResolvedModule)))
| EvTsResolveModuleName (name containingFile : string)
    (opts : CompilerOptions) (cache : option ModuleResolutionCache)
    (redirected : option ResolvedProjectReference)
    (reply : outcome Exn ResolvedModuleWithFailedLookupLocations)
| EvResolveTypeReferenceDirectives (names : list string)
    (containingFile : string) (parameters : TypeRefRest)
    (reply : outcome Exn (list (option ResolvedTypeReferenceDirective)))
| EvTsResolveTypeReferenceDirective (name containingFile : string)
    (opts : CompilerOptions) (redirected : option ResolvedProjectReference)
    (reply : outcome Exn ResolvedTypeReferenceDirectiveWithFailedLookupLocations)
| EvProcessModule (moduleName : string) (resolved : Resolution)
    (reply : outcome Exn unit)
| EvGetSourceFile (fileName : string) (languageVersion : ScriptTarget)
    (onError : OnError) (shouldCreateNewSourceFile : option bool)
    (parameters : Extra) (reply : outcome Exn (option handle)).

(** ** The world and its monad *)

Record World := {
  ext : Ext;
  files : gmap handle SourceFile;
  dependencies : gmap string (gset string);
  cache : gmap string handle;
  trace : list Event;
}.

Definition M (A : Type) : Type := World -> outcome Exn A * World.

Definition ret {A} (a : A) : M A := fun w => (Returned a, w).

Definition bind {A B} (m : M A) (k : A -> M B) : M B :=
  fun w =>
    match m w with
    | (Returned a, w') => k a w'
    | (Thrown e, w') => (Thrown e, w')
    end.

Notation "'let*' x := m 'in' k" := (bind m (fun x => k))
  (at level 10, x name, m at level 100, k at level 200).

(** [array.map(callback)]: the callback runs on the elements in order. *)
Fixpoint mapM {A B} (f : A -> M B) (l : list A) : M (list B) :=
  match l with
  | [] => ret []
  | a :: l' =>
      let* b := f a in
      let* bs := mapM f l' in
      ret (b :: bs)
  end.

(** [for (const x of l) { body }]. *)
Fixpoint forOf {A} (l : list A) (body : A -> M unit) : M unit :=
  match l with
  | [] => ret tt
  | a :: l' => let* _ := body a in forOf l' body
  end.

(** A pure helper that may throw. *)
Definition lift {A} (o : outcome Exn A) : M A := fun w => (o, w).

(** A collaborator: it sees and changes only [Ext]. *)
Definition Call (R : Type) : Type := Ext -> outcome Exn R * Ext.

(** Calling a collaborator: run it on [ext], log the call. *)
Definition extern {R} (ev : outcome Exn R -> Event) (f : Call R) : M R :=
  fun w =>
    let '(o, e') := f (ext w) in
    (o, {| ext := e'; files := files w; dependencies := dependencies w;
           cache := cache w; trace := trace w ++ [ev o] |}).

Definition set_files (fs : gmap handle SourceFile) (w : World) : World :=
  {| ext := ext w; files := fs; dependencies := dependencies w;
     cache := cache w; trace := trace w |}.

Definition set_dependencies (d : gmap string (gset string)) (w : World) : World :=
  {| ext := ext w; files := files w; dependencies := d;
     cache := cache w; trace := trace w |}.

Definition set_cache (c : gmap string handle) (w : World) : World :=
  {| ext := ext w; files := files w; dependencies := dependencies w;
     cache := c; trace := trace w |}.

(** ** Hosts *)

(** The methods of [ts.CompilerHost] that the augmentations touch.  The two
    batched resolvers are optional members of the interface. *)
Record CompilerHost := {
  resolveModuleNames :
    option (list string -> string -> ModuleRest ->
            M (list (option ResolvedModule)));
  resolveTypeReferenceDirectives :
    option (list string -> string -> TypeRefRest ->
            M (list (option ResolvedTypeReferenceDirective)));
  getSourceFile :
    string -> ScriptTarget -> OnError -> option bool -> Extra ->
    M (option handle);
}.

(** [ts.Program], as far as it is touched. *)
Record Program := {
  getSourceFiles : Extra -> M (list handle);
}.

(** The ngcc processor. *)
Record NgccProcessor := {
  processModule : string -> Resolution -> M unit;
}.

(** The unaugmented host, program and processor: opaque behaviours over
    [Ext]. *)
Record BaseHost := {
  base_resolveModuleNames :
    option (list string -> string -> ModuleRest ->
            Call (list (option ResolvedModule)));
  base_resolveTypeReferenceDirectives :
    option (list string -> string -> TypeRefRest ->
            Call (list (option ResolvedTypeReferenceDirective)));
  base_getSourceFile :
    string -> ScriptTarget -> OnError -> option bool -> Extra ->
    Call (option handle);
}.

Definition host_of (b : BaseHost) : CompilerHost :=
  {| resolveModuleNames :=
       (fun f moduleNames containingFile parameters =>
          extern (EvResolveModuleNames moduleNames containingFile parameters)
                 (f moduleNames containingFile parameters))
       <$> base_resolveModuleNames b;
     resolveTypeReferenceDirectives :=
       (fun f names containingFile parameters =>
          extern (EvResolveTypeReferenceDirectives names containingFile parameters)
                 (f names containingFile parameters))
       <$> base_resolveTypeReferenceDirectives b;
     getSourceFile :=
       fun fileName languageVersion onError shouldCreateNewSourceFile parameters =>
         extern (EvGetSourceFile fileName languageVersion onError
                                 shouldCreateNewSourceFile parameters)
                (base_getSourceFile b fileName languageVersion onError
                                    shouldCreateNewSourceFile parameters) |}.

Definition program_of (enumerate : Extra -> Call (list handle)) : Program :=
  {| getSourceFiles := fun parameters =>
       extern (EvGetSourceFiles parameters) (enumerate parameters) |}.

Definition ngcc_of (process : string -> Resolution -> Call unit) : NgccProcessor :=
  {| processModule := fun moduleName resolved =>
       extern (EvProcessModule moduleName resolved) (process moduleName resolved) |}.

(** ** Imported functions *)

(** [createHash('sha256').update(text).digest('hex')] of Node's [crypto]. *)
Variable sha256_hex : string -> string.

(** [normalizePath] of [./path]; like every JavaScript function it may
    throw. *)
Variable normalizePath : string -> outcome Exn string.

(** [ts.resolveModuleName(name, containingFile, options, host, cache,
    redirectedReference)]. *)
Variable tsResolveModuleName :
  string -> string -> CompilerOptions -> option ModuleResolutionCache ->
  option ResolvedProjectReference ->
  Call ResolvedModuleWithFailedLookupLocations.

(** [ts.resolveTypeReferenceDirective(name, containingFile, options, host,
    redirectedReference)]. *)
Variable tsResolveTypeReferenceDirective :
  string -> string -> CompilerOptions -> option ResolvedProjectReference ->
  Call ResolvedTypeReferenceDirectiveWithFailedLookupLocations.

Definition ts_resolveModuleName (name containingFile : string)
    (opts : CompilerOptions) (mrc : option ModuleResolutionCache)
    (redirected : option ResolvedProjectReference)
    : M ResolvedModuleWithFailedLookupLocations :=
  extern (EvTsResolveModuleName name containingFile opts mrc redirected)
         (tsResolveModuleName name containingFile opts mrc redirected).

Definition ts_resolveTypeReferenceDirective (name containingFile : string)
    (opts : CompilerOptions) (redirected : option ResolvedProjectReference)
    : M ResolvedTypeReferenceDirectiveWithFailedLookupLocations :=
  extern (EvTsResolveTypeReferenceDirective name containingFile opts redirected)
         (tsResolveTypeReferenceDirective name containingFile opts redirected).

(** ** augmentProgramWithVersioning *)

(** The loop body: [if (file.version === undefined) file.version = digest].
    A JavaScript reference always points to an object; the last branch is
    there only because a [gmap] lookup is partial. *)
Definition versionFile (file : handle) : M unit :=
  fun w =>
    match files w !! file with
    | Some f =>
        match version f with
        | None =>
            (Returned tt,
             set_files (<[file := {| text := text f;
                                     version := Some (sha256_hex (text f)) |}]>
                          (files w)) w)
        | Some _ => (Returned tt, w)
        end
    | None => (Returned tt, w)
    end.

Definition augmentProgramWithVersioning (program : Program) : Program :=
  let baseGetSourceFiles := getSourceFiles program in
  {| getSourceFiles := fun parameters =>
       let* fs := baseGetSourceFiles parameters in
       let* _ := forOf fs versionFile in
       ret fs |}.

(** ** augmentHostWithDependencyCollection *)

(** [dependencies.get(key)], then [set.add(target)] on the set found (the
    set object is shared with the map, so the map sees the new member) or
    [dependencies.set(key, new Set([target]))]. *)
Definition addEdge (containingFilePath target : string)
    (d : gmap string (gset string)) : gmap string (gset string) :=
  match d !! containingFilePath with
  | Some containingFileDependencies =>
      <[containingFilePath := containingFileDependencies ∪ {[target]}]> d
  | None => <[containingFilePath := {[target]}]> d
  end.

Definition addDependency (containingFilePath target : string) : M unit :=
  fun w =>
    (Returned tt,
     set_dependencies (addEdge containingFilePath target (dependencies w)) w).

Definition with_resolveModuleNames (host : CompilerHost)
    (f : list string -> string -> ModuleRest -> M (list (option ResolvedModule)))
    : CompilerHost :=
  {| resolveModuleNames := Some f;
     resolveTypeReferenceDirectives := resolveTypeReferenceDirectives host;
     getSourceFile := getSourceFile host |}.

Definition with_resolveTypeReferenceDirectives (host : CompilerHost)
    (f : list string -> string -> TypeRefRest ->
         M (list (option ResolvedTypeReferenceDirective)))
    : CompilerHost :=
  {| resolveModuleNames := resolveModuleNames host;
     resolveTypeReferenceDirectives := Some f;
     getSourceFile := getSourceFile host |}.

Definition with_getSourceFile (host : CompilerHost)
    (f : string -> ScriptTarget -> OnError -> option bool -> Extra ->
         M (option handle))
    : CompilerHost :=
  {| resolveModuleNames := resolveModuleNames host;
     resolveTypeReferenceDirectives := resolveTypeReferenceDirectives host;
     getSourceFile := f |}.

Definition augmentHostWithDependencyCollection (host : CompilerHost)
    (moduleResolutionCache : option ModuleResolutionCache) : CompilerHost :=
  match resolveModuleNames host with
  | Some baseResolveModuleNames =>
      with_resolveModuleNames host
        (fun moduleNames containingFile parameters =>
           let* results :=
             baseResolveModuleNames moduleNames containingFile parameters in
           let* containingFilePath := lift (normalizePath containingFile) in
           let* _ :=
             forOf results (fun result =>
               match result with
               | Some r => addDependency containingFilePath (resolvedFileName r)
               | None => ret tt
               end) in
           ret results)
  | None =>
      with_resolveModuleNames host
        (fun moduleNames containingFile parameters =>
           mapM (fun name =>
             let* located :=
               ts_resolveModuleName name containingFile (options parameters)
                 moduleResolutionCache (redirectedReference parameters) in
             let result := resolvedModule located in
             let* _ :=
               match result with
               | Some r =>
                   let* containingFilePath :=
                     lift (normalizePath containingFile) in
                   addDependency containingFilePath (resolvedFileName r)
               | None => ret tt
               end in
             ret result) moduleNames)
  end.

(** ** augmentHostWithCaching *)

Definition augmentHostWithCaching (host : CompilerHost) : CompilerHost :=
  let baseGetSourceFile := getSourceFile host in
  with_getSourceFile host
    (fun fileName languageVersion onError shouldCreateNewSourceFile parameters =>
       fun w =>
         if negb (truthy shouldCreateNewSourceFile)
            && bool_decide (is_Some (cache w !! fileName))
         then (Returned (cache w !! fileName), w)
         else
           (let* file :=
              baseGetSourceFile fileName languageVersion onError (Some true)
                parameters in
            let* _ :=
              match file with
              | Some f => fun w' =>
                  (Returned tt, set_cache (<[fileName := f]> (cache w')) w')
              | None => ret tt
              end in
            ret file) w).

(** ** augmentResolveModuleNames and augmentHostWithNgcc *)

Definition augmentResolveModuleNames (host : CompilerHost)
    (resolvedModuleModifier :
       option ResolvedModule -> string -> M (option ResolvedModule))
    (moduleResolutionCache : option ModuleResolutionCache) : CompilerHost :=
  match resolveModuleNames host with
  | Some baseResolveModuleNames =>
      with_resolveModuleNames host
        (fun moduleNames containingFile parameters =>
           mapM (fun name =>
             let* result :=
               baseResolveModuleNames [name] containingFile parameters in
             resolvedModuleModifier (first result) name) moduleNames)
  | None =>
      with_resolveModuleNames host
        (fun moduleNames containingFile parameters =>
           mapM (fun name =>
             let* located :=
               ts_resolveModuleName name containingFile (options parameters)
                 moduleResolutionCache (redirectedReference parameters) in
             resolvedModuleModifier (resolvedModule located) name) moduleNames)
  end.

(** [ngcc] is tested for truthiness before every use, so it is optional. *)
Definition augmentHostWithNgcc (host : CompilerHost)
    (ngcc : option NgccProcessor)
    (moduleResolutionCache : option ModuleResolutionCache) : CompilerHost :=
  let host :=
    augmentResolveModuleNames host
      (fun resolvedModule moduleName =>
         let* _ :=
           match resolvedModule, ngcc with
           | Some m, Some processor =>
               processModule processor moduleName (inl m)
           | _, _ => ret tt
           end in
         ret resolvedModule)
      moduleResolutionCache in
  match resolveTypeReferenceDirectives host with
  | Some baseResolveTypeReferenceDirectives =>
      with_resolveTypeReferenceDirectives host
        (fun names containingFile parameters =>
           mapM (fun name =>
             let* result :=
               baseResolveTypeReferenceDirectives [name] containingFile
                 parameters in
             let* _ :=
               match first result, ngcc with
               | Some d, Some processor =>
                   processModule processor name (inr d)
               | _, _ => ret tt
               end in
             ret (first result)) names)
  | None =>
      with_resolveTypeReferenceDirectives host
        (fun moduleNames containingFile parameters =>
           mapM (fun name =>
             let* located :=
               ts_resolveTypeReferenceDirective name containingFile
                 (typeOptions parameters)
                 (typeRedirectedReference parameters) in
             let result := resolvedTypeReferenceDirective located in
             let* _ :=
               match result, ngcc with
               | Some d, Some processor =>
                   processModule processor name (inr d)
               | _, _ => ret tt
               end in
             ret result) moduleNames)
  end.

(** ** Reading a trace *)

(** What a batched resolver answered for each requested name: the result at
    the name's position, [undefined] past the end of the reply. *)
Fixpoint answered {A} (names : list string) (reply : list (option A))
    : list (string * option A) :=
  match names with
  | [] => []
  | n :: ns => (n, first reply) :: answered ns (tail reply)
  end.

(** The module resolutions a call obtained, each with the name it was
    obtained for. *)
Definition module_answers (ev : Event) : list (string * option ResolvedModule) :=
  match ev with
  | EvResolveModuleNames names _ _ (Returned reply) => answered names reply
  | EvTsResolveModuleName name _ _ _ _ (Returned located) =>
      [(name, resolvedModule located)]
  | _ => []
  end.

(** The same for type-reference directives. *)
Definition typeref_answers (ev : Event)
    : list (string * option ResolvedTypeReferenceDirective) :=
  match ev with
  | EvResolveTypeReferenceDirectives names _ _ (Returned reply) =>
      answered names reply
  | EvTsResolveTypeReferenceDirective name _ _ _ (Returned located) =>
      [(name, resolvedTypeReferenceDirective located)]
  | _ => []
  end.

(** The calls of [ngcc.processModule]: requested name and resolution. *)
Definition processed (ev : Event) : list (string * Resolution) :=
  match ev with
  | EvProcessModule moduleName resolved _ => [(moduleName, resolved)]
  | _ => []
  end.

(** The single-name lookups ([ts.resolveModuleName],
    [ts.resolveTypeReferenceDirective]): the name and the resolution-cache
    argument of the call, [None] where the call passes none. *)
Definition single_lookups (ev : Event)
    : list (string * option ModuleResolutionCache) :=
  match ev with
  | EvTsResolveModuleName name _ _ mrc _ _ => [(name, mrc)]
  | EvTsResolveTypeReferenceDirective name _ _ _ _ => [(name, None)]
  | _ => []
  end.

(** The calls of the base host's batched module resolver that returned: the
    batch, the other arguments and the reply. *)
Definition module_batches (ev : Event)
    : list (list string * string * ModuleRest * list (option ResolvedModule)) :=
  match ev with
  | EvResolveModuleNames names containingFile parameters (Returned reply) =>
      [(names, containingFile, parameters, reply)]
  | _ => []
  end.

Definition typeref_batches (ev : Event)
    : list (list string * string * TypeRefRest *
            list (option ResolvedTypeReferenceDirective)) :=
  match ev with
  | EvResolveTypeReferenceDirectives names containingFile parameters
      (Returned reply) => [(names, containingFile, parameters, reply)]
  | _ => []
  end.

(** The calls of the base host's [getSourceFile]: file name and the
    [shouldCreateNewSourceFile] argument it was given. *)
Definition retrievals (ev : Event) : list (string * option bool) :=
  match ev with
  | EvGetSourceFile fileName _ _ shouldCreateNewSourceFile _ _ =>
      [(fileName, shouldCreateNewSourceFile)]
  | _ => []
  end.

(** The names with a resolution, paired with it as [processModule] gets
    it. *)
Definition successes {A} (inj : A -> Resolution) (names : list string)
    (results : list (option A)) : list (string * Resolution) :=
  omap (fun p => (fun r => (p.1, inj r)) <$> p.2) (zip names results).

(** The resolved file names among the module resolutions of a reply. *)
Definition targets (reply : list (option ResolvedModule)) : list string :=
  omap (fun result => resolvedFileName <$> result) reply.

(** The resolved file names a call obtained, whatever their position. *)
Definition module_targets (ev : Event) : list string :=
  match ev with
  | EvResolveModuleNames _ _ _ (Returned reply) => targets reply
  | EvTsResolveModuleName _ _ _ _ _ (Returned located) =>
      targets [resolvedModule located]
  | _ => []
  end.

(** [host.resolveModuleNames(names, containingFile, ...parameters)] run in
    world [w] ends with outcome [o] in world [w']. *)
Definition run_resolveModuleNames (host : CompilerHost)
    (names : list string) (containingFile : string) (parameters : ModuleRest)
    (w : World) (o : outcome Exn (list (option ResolvedModule))) (w' : World)
    : Prop :=
  exists op, resolveModuleNames host = Some op /\
             op names containingFile parameters w = (o, w').

(** The same for [host.resolveTypeReferenceDirectives]. *)
Definition run_resolveTypeReferenceDirectives (host : CompilerHost)
    (names : list string) (containingFile : string) (parameters : TypeRefRest)
    (w : World)
    (o : outcome Exn (list (option ResolvedTypeReferenceDirective)))
    (w' : World) : Prop :=
  exists op, resolveTypeReferenceDirectives host = Some op /\
             op names containingFile parameters w = (o, w').

(** The events of the post-processing of one resolution: one call of
    [processModule] when there is a resolution and a processor. *)
Definition process_events (enabled : bool) (name : string)
    (r : option Resolution) : list Event :=
  match r with
  | Some x => if enabled then [EvProcessModule name x (Returned tt)] else []
  | None => []
  end.

(** The graph after recording [recorded] under the key that
    [normalizePath containingFile] gives; nothing is recorded when the
    normalizer throws. *)
Definition graph_after (containingFile : string) (recorded : list string)
    (d : gmap string (gset string)) : gmap string (gset string) :=
  match normalizePath containingFile with
  | Returned containingFilePath =>
      foldl (fun d target => addEdge containingFilePath target d) d recorded
  | Thrown _ => d
  end.

(** A collaborator that returns normally in every state. *)
Definition returns {R} (f : Call R) : Prop :=
  forall e, exists r e', f e = (Returned r, e').

(** The batched module resolver of a base host answers with one result per
    name, as the [CompilerHost] interface asks. *)
Definition honours_batch (b : BaseHost) : Prop :=
  forall f, base_resolveModuleNames b = Some f ->
    forall names c r e reply e',
      f names c r e = (Returned reply, e') -> length reply = length names.

(** The resolvers the wrappers call return normally: the batched resolver of
    the base host where it has one, the single-name resolver of the
    [typescript] library where it has none. *)
Definition modules_return (b : BaseHost) : Prop :=
  match base_resolveModuleNames b with
  | Some f => forall names c r, returns (f names c r)
  | None => forall n c o m r, returns (tsResolveModuleName n c o m r)
  end.

Definition typerefs_return (b : BaseHost) : Prop :=
  match base_resolveTypeReferenceDirectives b with
  | Some g => forall names c r, returns (g names c r)
  | None => forall n c o r, returns (tsResolveTypeReferenceDirective n c o r)
  end.

(** The ngcc processor, when there is one, returns normally. *)
Definition processor_returns
    (process : option (string -> Resolution -> Call unit)) : Prop :=
  forall p, process = Some p -> forall n x, returns (p n x).

(** A path is normalized when [normalizePath] produces it. *)
Definition normalized (p : string) : Prop :=
  exists q, normalizePath q = Returned p.

End Host.

(** * Concrete collaborators

    A small compilation used for the examples: the collaborators count their
    calls in [Ext := nat], exceptions are messages, resolution-cache tokens
    are numbers and the remaining opaque types are [unit]. *)

Module Scenario.

Definition World : Type := @World nat string unit unit nat unit unit.
Definition Event : Type := @Event string unit unit nat unit unit.
Definition BaseHost : Type := @BaseHost nat string unit unit unit unit.
Definition Call (R : Type) : Type := @Call nat string R.

Definition backslash : Ascii.ascii := "\"%char.
Definition slash : Ascii.ascii := "/"%char.

Fixpoint toPosix (path : string) : string :=
  match path with
  | EmptyString => EmptyString
  | String c rest =>
      String (if Ascii.eqb c backslash then slash else c) (toPosix rest)
  end.

Fixpoint hasBackslash (path : string) : bool :=
  match path with
  | EmptyString => false
  | String c rest => Ascii.eqb c backslash || hasBackslash rest
  end.

(** Modelled from the spec: the path-normalization utility of [./path], which
    is not among the sources; it "maps platform-specific separators to one
    canonical form". *)
Definition normalizePath (path : string) : outcome string string :=
  Returned (toPosix path).

(** Modelled from the spec: a path normalizer for which recording "cannot
    proceed (e.g., malformed path)"; this one rejects the empty path and
    normalizes every other one as above. *)
Definition normalizePath_strict (path : string) : outcome string string :=
  if String.eqb path "" then Thrown "malformed path"%string
  else Returned (toPosix path).

(** A stand-in for the SHA-256 digest, enough to tell texts apart in the
    examples. *)
Definition sha256_hex (text : string) : string := "sha256:" +:+ text.

Definition pkg_a : ResolvedModule :=
  {| resolvedFileName := "/node_modules/pkg-a/index.d.ts";
     isExternalLibraryImport := true |}.

(** A module the host resolves to a path with Windows separators. *)
Definition pkg_w : ResolvedModule :=
  {| resolvedFileName := "C:\node_modules\pkg-w\index.d.ts";
     isExternalLibraryImport := true |}.

Definition types_node : ResolvedTypeReferenceDirective :=
  {| primary := true;
     typeResolvedFileName := Some "/node_modules/@types/node/index.d.ts"%string |}.

Definition lookupModule (name : string) : option ResolvedModule :=
  if String.eqb name "pkg-a" then Some pkg_a
  else if String.eqb name "pkg-w" then Some pkg_w
  else None.

Definition lookupTypeRef (name : string)
    : option ResolvedTypeReferenceDirective :=
  if String.eqb name "node" then Some types_node else None.

Definition tsResolveModuleName (name containingFile : string) (opts : unit)
    (mrc : option nat) (redirected : option unit)
    : Call ResolvedModuleWithFailedLookupLocations :=
  fun calls =>
    (Returned {| resolvedModule := lookupModule name;
                 failedLookupLocations := [] |}, S calls).

Definition tsResolveTypeReferenceDirective (name containingFile : string)
    (opts : unit) (redirected : option unit)
    : Call ResolvedTypeReferenceDirectiveWithFailedLookupLocations :=
  fun calls =>
    (Returned {| resolvedTypeReferenceDirective := lookupTypeRef name;
                 typeFailedLookupLocations := [] |}, S calls).

Definition batchedModules (names : list string) (containingFile : string)
    (parameters : @ModuleRest unit unit unit)
    : Call (list (option ResolvedModule)) :=
  fun calls => (Returned (lookupModule <$> names), S calls).

Definition batchedTypeRefs (names : list string) (containingFile : string)
    (parameters : @TypeRefRest unit unit unit)
    : Call (list (option ResolvedTypeReferenceDirective)) :=
  fun calls => (Returned (lookupTypeRef <$> names), S calls).

(** The base host reads a file into a new [SourceFile] object on every
    call; ["missing.ts"] does not exist. *)
Definition readSourceFile (fileName : string) (languageVersion : ScriptTarget)
    (onError : unit) (shouldCreateNewSourceFile : option bool)
    (parameters : unit) : Call (option handle) :=
  fun calls =>
    (Returned (if String.eqb fileName "missing.ts" then None else Some calls),
     S calls).

Definition batchedHost : BaseHost :=
  {| base_resolveModuleNames := Some batchedModules;
     base_resolveTypeReferenceDirectives := Some batchedTypeRefs;
     base_getSourceFile := readSourceFile |}.

Definition singleHost : BaseHost :=
  {| base_resolveModuleNames := None;
     base_resolveTypeReferenceDirectives := None;
     base_getSourceFile := readSourceFile |}.

(** Hosts with the batched resolver of one surface only. *)
Definition modulesOnlyHost : BaseHost :=
  {| base_resolveModuleNames := Some batchedModules;
     base_resolveTypeReferenceDirectives := None;
     base_getSourceFile := readSourceFile |}.

Definition typeRefsOnlyHost : BaseHost :=
  {| base_resolveModuleNames := None;
     base_resolveTypeReferenceDirectives := Some batchedTypeRefs;
     base_getSourceFile := readSourceFile |}.

Definition enumerate (parameters : unit) : Call (list handle) :=
  fun calls => (Returned [0; 1; 0], S calls).

Definition process (moduleName : string) (resolved : Resolution) : Call unit :=
  fun calls => (Returned tt, S calls).

Definition moduleRest : @ModuleRest unit unit unit :=
  {| reusedNames := None; redirectedReference := None; options := tt;
     moreArguments := tt |}.

Definition typeRefRest : @TypeRefRest unit unit unit :=
  {| typeRedirectedReference := None; typeOptions := tt;
     typeMoreArguments := tt |}.

(** Two source files, the second already versioned; nothing recorded or
    cached yet. *)
Definition start : World :=
  {| ext := 0;
     files := {[ 0 := {| text := "export {}"; version := None |};
                 1 := {| text := "let x"; version := Some "v1"%string |} ]};
     dependencies := ∅;
     cache := ∅;
     trace := [] |}.

(** A later moment of the compilation: an edge is recorded, ["a.ts"] is
    cached. *)
Definition later : World :=
  {| ext := 3;
     files := ∅;
     dependencies := {[ "/src/app.ts"%string := {[ "/src/util.ts"%string ]} ]};
     cache := {[ "a.ts"%string := 40 ]};
     trace := [] |}.

End Scenario.

(** * Properties *)

Section Properties.

Context {Ext Exn CompilerOptions ResolvedProjectReference
         ModuleResolutionCache OnError Extra : Type}.

Local Abbreviation World :=
  (@World Ext Exn CompilerOptions ResolvedProjectReference
          ModuleResolutionCache OnError Extra).
Local Abbreviation M :=
  (@M Ext Exn CompilerOptions ResolvedProjectReference
      ModuleResolutionCache OnError Extra).
Local Abbreviation Event :=
  (@Event Exn CompilerOptions ResolvedProjectReference
          ModuleResolutionCache OnError Extra).
Local Abbreviation Call := (@Call Ext Exn).
Local Abbreviation BaseHost :=
  (@BaseHost Ext Exn CompilerOptions ResolvedProjectReference OnError Extra).
Local Abbreviation ModuleRest :=
  (@ModuleRest CompilerOptions ResolvedProjectReference Extra).
Local Abbreviation TypeRefRest :=
  (@TypeRefRest CompilerOptions ResolvedProjectReference Extra).
Local Abbreviation CompilerHost :=
  (@CompilerHost Ext Exn CompilerOptions ResolvedProjectReference
                 ModuleResolutionCache OnError Extra).

(** ** The monad *)

Lemma bind_returned {A B} (m : M A) (k : A -> M B) w a w' :
  m w = (Returned a, w') -> bind m k w = k a w'.
Proof. intros H. unfold bind. by rewrite H. Qed.

Lemma bind_thrown {A B} (m : M A) (k : A -> M B) w e w' :
  m w = (Thrown e, w') -> bind m k w = (Thrown e, w').
Proof. intros H. unfold bind. by rewrite H. Qed.

(** A collaborator that returns leaves one event and touches nothing but
    [ext]. *)
Lemma extern_returned {R} (ev : outcome Exn R -> Event) (f : Call R) (w : World) r e' :
  f (ext w) = (Returned r, e') ->
  exists w', extern ev f w = (Returned r, w') /\
             trace w' = trace w ++ [ev (Returned r)] /\
             ext w' = e' /\ files w' = files w /\
             dependencies w' = dependencies w /\ cache w' = cache w.
Proof.
  intros H. unfold extern. rewrite H. eexists. split; [reflexivity|]. done.
Qed.

(** Whatever its outcome, a collaborator call adds exactly one event. *)
Lemma extern_any {R} (ev : outcome Exn R -> Event) (f : Call R) (w : World) :
  exists o w', extern ev f w = (o, w') /\
               f (ext w) = (o, ext w') /\
               trace w' = trace w ++ [ev o] /\ files w' = files w /\
               dependencies w' = dependencies w /\ cache w' = cache w.
Proof.
  unfold extern. destruct (f (ext w)) as [o e'].
  eexists _, _. split; [reflexivity|]. done.
Qed.

(** [mapM] over steps that always return: one result per element, and the
    trace grows by the events of each step in turn. *)
Lemma mapM_returned {A B C} (step : A -> M B) (proj : C -> B)
    (evs : A -> C -> list Event) :
  (forall a w, exists c w',
      step a w = (Returned (proj c), w') /\ trace w' = trace w ++ evs a c) ->
  forall l w, exists cs w',
      mapM step l w = (Returned (proj <$> cs), w') /\
      length cs = length l /\
      trace w' = trace w ++ concat (zip_with evs l cs).
Proof.
  intros Hstep l. induction l as [|a l IH]; intros w.
  - exists [], w. cbn. by rewrite app_nil_r.
  - destruct (Hstep a w) as (c & w1 & Hrun & Htr).
    destruct (IH w1) as (cs & w2 & Hrest & Hlen & Htr2).
    exists (c :: cs), w2. cbn [mapM].
    rewrite (bind_returned _ _ _ _ _ Hrun), (bind_returned _ _ _ _ _ Hrest).
    split; [reflexivity|]. split; [cbn; by rewrite Hlen|].
    rewrite Htr2, Htr. cbn. by rewrite app_assoc.
Qed.

(** Reading the events of such a run with an observation [X]. *)
Lemma bind_concat_zip_with {A C T} (X : Event -> list T)
    (evs : A -> C -> list Event) (x : A -> C -> list T) :
  (forall a c, evs a c ≫= X = x a c) ->
  forall l cs, concat (zip_with evs l cs) ≫= X = concat (zip_with x l cs).
Proof.
  intros HX l. induction l as [|a l IH]; intros [|c cs]; try done.
  cbn [zip_with concat]. by rewrite bind_app, HX, IH.
Qed.

Lemma concat_zip_with_successes {C B} (proj : C -> option B)
    (inj : B -> Resolution) (l : list string) (cs : list C) :
  concat (zip_with (fun a c => match proj c with
                               | Some r => [(a, inj r)]
                               | None => []
                               end) l cs)
  = successes inj l (proj <$> cs).
Proof.
  unfold successes. revert cs.
  induction l as [|a l IH]; intros [|c cs]; try done.
  cbn. rewrite IH. by destruct (proj c).
Qed.

Lemma concat_zip_with_nil {A C T} (l : list A) (cs : list C) :
  concat (zip_with (fun _ _ => @nil T) l cs) = [].
Proof. revert cs. induction l as [|a l IH]; intros [|c cs]; try done. cbn. apply IH. Qed.

Lemma concat_zip_with_const {A C T} (g : A -> T) (l : list A) (cs : list C) :
  length cs = length l ->
  concat (zip_with (fun a _ => [g a]) l cs) = g <$> l.
Proof.
  revert cs. induction l as [|a l IH]; intros [|c cs] Hlen; try done.
  cbn. f_equal. apply IH. by injection Hlen.
Qed.

Lemma answered_zip {A} (names : list string) (reply : list (option A)) :
  length reply = length names -> answered names reply = zip names reply.
Proof.
  revert reply. induction names as [|n ns IH]; intros [|r reply] Hlen; try done.
  cbn. f_equal. apply IH. by injection Hlen.
Qed.

(** ** The collaborators of this section *)

Variable normalizePath : string -> outcome Exn string.
Variable tsResolveModuleName :
  string -> string -> CompilerOptions -> option ModuleResolutionCache ->
  option ResolvedProjectReference ->
  Call ResolvedModuleWithFailedLookupLocations.
Variable tsResolveTypeReferenceDirective :
  string -> string -> CompilerOptions -> option ResolvedProjectReference ->
  Call ResolvedTypeReferenceDirectiveWithFailedLookupLocations.

Local Abbreviation withNgcc :=
  (augmentHostWithNgcc tsResolveModuleName tsResolveTypeReferenceDirective).
Local Abbreviation withDependencyCollection :=
  (augmentHostWithDependencyCollection normalizePath tsResolveModuleName).

(** Whether there is a processor. *)
Local Abbreviation enabled process := (bool_decide (is_Some process)).

(** ** Post-processing one resolution *)

Lemma process_step {A} (inj : A -> Resolution)
    (process : option (string -> Resolution -> Call unit))
    (name : string) (r : option A) (w : World) :
  (forall p, process = Some p -> forall n x, returns (p n x)) ->
  exists w',
    match r, ngcc_of <$> process with
    | Some d, Some processor => processModule processor name (inj d)
    | _, _ => ret tt
    end w = (Returned tt, w') /\
    trace w' = trace w ++ process_events (enabled process) name (inj <$> r).
Proof.
  intros Hp. destruct r as [d|]; cbn.
  - destruct process as [p|]; cbn.
    + destruct (Hp p eq_refl name (inj d) (ext w)) as ([] & e' & Hcall).
      destruct (extern_returned (EvProcessModule name (inj d)) _ w _ _ Hcall)
        as (w' & Hrun & Htr & _).
      exists w'. split; [exact Hrun|exact Htr].
    + exists w. by rewrite app_nil_r.
  - exists w. rewrite app_nil_r. by destruct process.
Qed.

(** ** The per-name wrappers of augmentHostWithNgcc *)

(** The events one name leaves on each path. *)
Local Abbreviation ngcc_modules_batched_events process containingFile parameters :=
  (fun (n : string) (reply : list (option ResolvedModule)) =>
     EvResolveModuleNames [n] containingFile parameters (Returned reply)
     :: process_events (enabled process) n (inl <$> first reply)).

Local Abbreviation ngcc_modules_single_events process containingFile parameters mrc :=
  (fun (n : string) (located : ResolvedModuleWithFailedLookupLocations) =>
     EvTsResolveModuleName n containingFile (options parameters) mrc
       (redirectedReference parameters) (Returned located)
     :: process_events (enabled process) n (inl <$> resolvedModule located)).

Local Abbreviation ngcc_typerefs_batched_events process containingFile parameters :=
  (fun (n : string) (reply : list (option ResolvedTypeReferenceDirective)) =>
     EvResolveTypeReferenceDirectives [n] containingFile parameters
       (Returned reply)
     :: process_events (enabled process) n (inr <$> first reply)).

Local Abbreviation ngcc_typerefs_single_events process containingFile parameters :=
  (fun (n : string)
       (located : ResolvedTypeReferenceDirectiveWithFailedLookupLocations) =>
     EvTsResolveTypeReferenceDirective n containingFile
       (typeOptions parameters) (typeRedirectedReference parameters)
       (Returned located)
     :: process_events (enabled process) n
          (inr <$> resolvedTypeReferenceDirective located)).

Lemma ngcc_installs_modules (host : CompilerHost) ngcc mrc :
  is_Some (resolveModuleNames (withNgcc host ngcc mrc)).
Proof.
  unfold augmentHostWithNgcc, augmentResolveModuleNames.
  destruct (resolveModuleNames host); cbn;
    destruct (resolveTypeReferenceDirectives host); cbn; eauto.
Qed.

Lemma ngcc_installs_typerefs (host : CompilerHost) ngcc mrc :
  is_Some (resolveTypeReferenceDirectives (withNgcc host ngcc mrc)).
Proof.
  unfold augmentHostWithNgcc, augmentResolveModuleNames.
  destruct (resolveModuleNames host); cbn;
    destruct (resolveTypeReferenceDirectives host); cbn; eauto.
Qed.

Lemma ngcc_modules_batched (b : BaseHost) f process mrc names containingFile
    parameters (w : World) :
  base_resolveModuleNames b = Some f ->
  (forall ns c r, returns (f ns c r)) ->
  (forall p, process = Some p -> forall n x, returns (p n x)) ->
  exists replies w',
    run_resolveModuleNames (withNgcc (host_of b) (ngcc_of <$> process) mrc)
      names containingFile parameters w (Returned (first <$> replies)) w' /\
    length replies = length names /\
    trace w' = trace w ++
      concat (zip_with
                (ngcc_modules_batched_events process containingFile parameters)
                names replies).
Proof.
  intros Hb Hf Hp.
  destruct (ngcc_installs_modules (host_of b) (ngcc_of <$> process) mrc)
    as [op Hop].
  enough (exists replies w',
    op names containingFile parameters w = (Returned (first <$> replies), w') /\
    length replies = length names /\
    trace w' = trace w ++
      concat (zip_with
                (ngcc_modules_batched_events process containingFile parameters)
                names replies)) as (replies & w' & Hrun & Hrest).
  { exists replies, w'. split; [by exists op|exact Hrest]. }
  revert Hop. unfold augmentHostWithNgcc, augmentResolveModuleNames, host_of.
  cbn. rewrite Hb. cbn.
  destruct (base_resolveTypeReferenceDirectives b); cbn;
    intros [= <-]; cbn beta.
  all: apply (mapM_returned _ first
         (ngcc_modules_batched_events process containingFile parameters)).
  all: intros n w0.
  all: destruct (Hf [n] containingFile parameters (ext w0)) as (reply & e' & Hcall).
  all: destruct (extern_returned
         (EvResolveModuleNames [n] containingFile parameters) _ w0 _ _ Hcall)
         as (w1 & Hrun1 & Htr1 & _).
  all: destruct (process_step inl process n (first reply) w1 Hp)
         as (w2 & Hrun2 & Htr2).
  all: exists reply, w2.
  all: rewrite (bind_returned _ _ _ _ _ Hrun1), (bind_returned _ _ _ _ _ Hrun2).
  all: split; [reflexivity|].
  all: rewrite Htr2, Htr1; by rewrite <- app_assoc.
Qed.

Lemma ngcc_modules_single (b : BaseHost) process mrc names containingFile
    parameters (w : World) :
  base_resolveModuleNames b = None ->
  (forall n c o m r, returns (tsResolveModuleName n c o m r)) ->
  (forall p, process = Some p -> forall n x, returns (p n x)) ->
  exists replies w',
    run_resolveModuleNames (withNgcc (host_of b) (ngcc_of <$> process) mrc)
      names containingFile parameters w
      (Returned (resolvedModule <$> replies)) w' /\
    length replies = length names /\
    trace w' = trace w ++
      concat (zip_with
                (ngcc_modules_single_events process containingFile parameters mrc)
                names replies).
Proof.
  intros Hb Hts Hp.
  destruct (ngcc_installs_modules (host_of b) (ngcc_of <$> process) mrc)
    as [op Hop].
  enough (exists replies w',
    op names containingFile parameters w
      = (Returned (resolvedModule <$> replies), w') /\
    length replies = length names /\
    trace w' = trace w ++
      concat (zip_with
                (ngcc_modules_single_events process containingFile parameters mrc)
                names replies)) as (replies & w' & Hrun & Hrest).
  { exists replies, w'. split; [by exists op|exact Hrest]. }
  revert Hop. unfold augmentHostWithNgcc, augmentResolveModuleNames, host_of.
  cbn. rewrite Hb. cbn.
  destruct (base_resolveTypeReferenceDirectives b); cbn;
    intros [= <-]; cbn beta.
  all: apply (mapM_returned _ resolvedModule
         (ngcc_modules_single_events process containingFile parameters mrc)).
  all: intros n w0.
  all: destruct (Hts n containingFile (options parameters) mrc
                   (redirectedReference parameters) (ext w0))
         as (located & e' & Hcall).
  all: destruct (extern_returned
         (EvTsResolveModuleName n containingFile (options parameters) mrc
            (redirectedReference parameters)) _ w0 _ _ Hcall)
         as (w1 & Hrun1 & Htr1 & _).
  all: destruct (process_step inl process n (resolvedModule located) w1 Hp)
         as (w2 & Hrun2 & Htr2).
  all: exists located, w2.
  all: unfold ts_resolveModuleName.
  all: rewrite (bind_returned _ _ _ _ _ Hrun1), (bind_returned _ _ _ _ _ Hrun2).
  all: split; [reflexivity|].
  all: rewrite Htr2, Htr1; by rewrite <- app_assoc.
Qed.

Lemma ngcc_typerefs_batched (b : BaseHost) g process mrc names containingFile
    parameters (w : World) :
  base_resolveTypeReferenceDirectives b = Some g ->
  (forall ns c r, returns (g ns c r)) ->
  (forall p, process = Some p -> forall n x, returns (p n x)) ->
  exists replies w',
    run_resolveTypeReferenceDirectives
      (withNgcc (host_of b) (ngcc_of <$> process) mrc)
      names containingFile parameters w (Returned (first <$> replies)) w' /\
    length replies = length names /\
    trace w' = trace w ++
      concat (zip_with
                (ngcc_typerefs_batched_events process containingFile parameters)
                names replies).
Proof.
  intros Hb Hg Hp.
  destruct (ngcc_installs_typerefs (host_of b) (ngcc_of <$> process) mrc)
    as [op Hop].
  enough (exists replies w',
    op names containingFile parameters w = (Returned (first <$> replies), w') /\
    length replies = length names /\
    trace w' = trace w ++
      concat (zip_with
                (ngcc_typerefs_batched_events process containingFile parameters)
                names replies)) as (replies & w' & Hrun & Hrest).
  { exists replies, w'. split; [by exists op|exact Hrest]. }
  revert Hop. unfold augmentHostWithNgcc, augmentResolveModuleNames, host_of.
  cbn. destruct (base_resolveModuleNames b); cbn; rewrite Hb; cbn;
    intros [= <-]; cbn beta.
  all: apply (mapM_returned _ first
         (ngcc_typerefs_batched_events process containingFile parameters)).
  all: intros n w0.
  all: destruct (Hg [n] containingFile parameters (ext w0)) as (reply & e' & Hcall).
  all: destruct (extern_returned
         (EvResolveTypeReferenceDirectives [n] containingFile parameters)
         _ w0 _ _ Hcall) as (w1 & Hrun1 & Htr1 & _).
  all: destruct (process_step inr process n (first reply) w1 Hp)
         as (w2 & Hrun2 & Htr2).
  all: exists reply, w2.
  all: rewrite (bind_returned _ _ _ _ _ Hrun1), (bind_returned _ _ _ _ _ Hrun2).
  all: split; [reflexivity|].
  all: rewrite Htr2, Htr1; by rewrite <- app_assoc.
Qed.

Lemma ngcc_typerefs_single (b : BaseHost) process mrc names containingFile
    parameters (w : World) :
  base_resolveTypeReferenceDirectives b = None ->
  (forall n c o r, returns (tsResolveTypeReferenceDirective n c o r)) ->
  (forall p, process = Some p -> forall n x, returns (p n x)) ->
  exists replies w',
    run_resolveTypeReferenceDirectives
      (withNgcc (host_of b) (ngcc_of <$> process) mrc)
      names containingFile parameters w
      (Returned (resolvedTypeReferenceDirective <$> replies)) w' /\
    length replies = length names /\
    trace w' = trace w ++
      concat (zip_with
                (ngcc_typerefs_single_events process containingFile parameters)
                names replies).
Proof.
  intros Hb Hts Hp.
  destruct (ngcc_installs_typerefs (host_of b) (ngcc_of <$> process) mrc)
    as [op Hop].
  enough (exists replies w',
    op names containingFile parameters w
      = (Returned (resolvedTypeReferenceDirective <$> replies), w') /\
    length replies = length names /\
    trace w' = trace w ++
      concat (zip_with
                (ngcc_typerefs_single_events process containingFile parameters)
                names replies)) as (replies & w' & Hrun & Hrest).
  { exists replies, w'. split; [by exists op|exact Hrest]. }
  revert Hop. unfold augmentHostWithNgcc, augmentResolveModuleNames, host_of.
  cbn. destruct (base_resolveModuleNames b); cbn; rewrite Hb; cbn;
    intros [= <-]; cbn beta.
  all: apply (mapM_returned _ resolvedTypeReferenceDirective
         (ngcc_typerefs_single_events process containingFile parameters)).
  all: intros n w0.
  all: destruct (Hts n containingFile (typeOptions parameters)
                   (typeRedirectedReference parameters) (ext w0))
         as (located & e' & Hcall).
  all: destruct (extern_returned
         (EvTsResolveTypeReferenceDirective n containingFile
            (typeOptions parameters) (typeRedirectedReference parameters))
         _ w0 _ _ Hcall) as (w1 & Hrun1 & Htr1 & _).
  all: destruct (process_step inr process n
                   (resolvedTypeReferenceDirective located) w1 Hp)
         as (w2 & Hrun2 & Htr2).
  all: exists located, w2.
  all: unfold ts_resolveTypeReferenceDirective.
  all: rewrite (bind_returned _ _ _ _ _ Hrun1), (bind_returned _ _ _ _ _ Hrun2).
  all: split; [reflexivity|].
  all: rewrite Htr2, Htr1; by rewrite <- app_assoc.
Qed.

(** ** The dependency graph *)

Lemma addEdge_lookup k t (d : gmap string (gset string)) j :
  addEdge k t d !! j
  = if decide (j = k) then Some (default ∅ (d !! k) ∪ {[t]}) else d !! j.
Proof.
  clear normalizePath tsResolveModuleName tsResolveTypeReferenceDirective.
  unfold addEdge. destruct (d !! k) as [s|] eqn:Hk; cbn.
  - case_decide as Hj; [subst j; by rewrite lookup_insert_eq|].
    by rewrite lookup_insert_ne.
  - case_decide as Hj; [subst j; rewrite lookup_insert_eq|
                        by rewrite lookup_insert_ne].
    f_equal. set_solver.
Qed.

Lemma addEdges_lookup_ne k ts (d : gmap string (gset string)) j :
  j <> k -> foldl (fun d t => addEdge k t d) d ts !! j = d !! j.
Proof.
  intros Hj. revert d. induction ts as [|t ts IH]; intros d; [done|].
  cbn. rewrite IH, addEdge_lookup. by case_decide.
Qed.

Lemma addEdges_lookup k ts (d : gmap string (gset string)) :
  ts <> [] ->
  foldl (fun d t => addEdge k t d) d ts !! k
  = Some (default ∅ (d !! k) ∪ list_to_set ts).
Proof.
  clear normalizePath tsResolveModuleName tsResolveTypeReferenceDirective.
  intros Hts. revert d. induction ts as [|t ts IH]; intros d; [done|].
  cbn. destruct ts as [|t' ts].
  - cbn. rewrite addEdge_lookup. case_decide; [|done]. f_equal. set_solver.
  - rewrite IH by done. rewrite addEdge_lookup. case_decide; [|done].
    cbn. f_equal. set_solver.
Qed.

(** The recording loop of the batched path. *)
Lemma forOf_addDependency p (results : list (option ResolvedModule)) (w : World) :
  exists w',
    forOf results (fun result =>
      match result with
      | Some r => addDependency p (resolvedFileName r)
      | None => ret tt
      end) w = (Returned tt, w') /\
    dependencies w'
      = foldl (fun d t => addEdge p t d) (dependencies w) (targets results) /\
    trace w' = trace w /\ ext w' = ext w /\ files w' = files w /\
    cache w' = cache w.
Proof.
  revert w. induction results as [|[r|] results IH]; intros w.
  - by exists w.
  - cbn [forOf]. unfold bind at 1. cbn.
    destruct (IH (set_dependencies
                    (addEdge p (resolvedFileName r) (dependencies w)) w))
      as (w' & Hrun & Hd & Hrest).
    exists w'. split; [exact Hrun|]. split; [|exact Hrest]. by rewrite Hd.
  - cbn [forOf]. unfold bind at 1. cbn.
    destruct (IH w) as (w' & Hrun & Hd & Hrest).
    exists w'. split; [exact Hrun|]. split; [|exact Hrest]. by rewrite Hd.
Qed.

Lemma graph_after_app containingFile l1 l2 (d : gmap string (gset string)) :
  graph_after normalizePath containingFile (l1 ++ l2) d
  = graph_after normalizePath containingFile l2
      (graph_after normalizePath containingFile l1 d).
Proof.
  unfold graph_after. destruct (normalizePath containingFile); [|done].
  by rewrite foldl_app.
Qed.

(** ** The wrappers of augmentHostWithDependencyCollection *)

Lemma dependencyCollection_installs (host : CompilerHost) mrc :
  is_Some (resolveModuleNames (withDependencyCollection host mrc)).
Proof.
  unfold augmentHostWithDependencyCollection.
  destruct (resolveModuleNames host); cbn; eauto.
Qed.

(** The batched path, whatever the collaborators do: one call of the base
    resolver with the caller's arguments; its results are returned when the
    base resolver and [normalizePath] both return, and an exception of
    either is the outcome of the call. *)
Lemma dependencyCollection_batched (b : BaseHost) f mrc op names
    containingFile parameters (w : World) :
  base_resolveModuleNames b = Some f ->
  resolveModuleNames (withDependencyCollection (host_of b) mrc) = Some op ->
  exists o0 w',
    f names containingFile parameters (ext w) = (o0, ext w') /\
    op names containingFile parameters w
      = (match o0 with
         | Returned results =>
             match normalizePath containingFile with
             | Returned _ => Returned results
             | Thrown e => Thrown e
             end
         | Thrown e => Thrown e
         end, w') /\
    trace w' = trace w
                 ++ [EvResolveModuleNames names containingFile parameters o0] /\
    dependencies w'
      = graph_after normalizePath containingFile
          (module_targets
             (EvResolveModuleNames names containingFile parameters o0 : Event))
          (dependencies w) /\
    files w' = files w /\ cache w' = cache w.
Proof.
  intros Hb. unfold augmentHostWithDependencyCollection, host_of. cbn.
  rewrite Hb. cbn. intros [= <-].
  destruct (extern_any
              (EvResolveModuleNames names containingFile parameters)
              (f names containingFile parameters) w)
    as (o0 & w1 & Hrun & Hcall & Htr & Hfiles & Hdeps & Hcache).
  destruct o0 as [results|e].
  - rewrite (bind_returned _ _ _ _ _ Hrun). unfold lift, bind at 1.
    unfold graph_after. cbn.
    destruct (normalizePath containingFile) as [q|e].
    + destruct (forOf_addDependency q results w1)
        as (w2 & Hloop & Hd2 & Htr2 & Hext2 & Hfiles2 & Hcache2).
      exists (Returned results), w2.
      rewrite (bind_returned _ _ _ _ _ Hloop). cbn.
      rewrite Hext2, Htr2, Hd2, Hfiles2, Hcache2, Hdeps. done.
    + exists (Returned results), w1. done.
  - rewrite (bind_thrown _ _ _ _ _ Hrun).
    exists (Thrown e), w1. unfold graph_after. cbn.
    split; [done|]. split; [done|]. split; [done|].
    split; [|done]. by destruct (normalizePath containingFile).
Qed.

(** The callback of the fallback path, for one name. *)
Local Abbreviation dependencyCollection_lookup containingFile parameters mrc :=
  (fun name : string =>
     bind (ts_resolveModuleName tsResolveModuleName name containingFile
             (options (parameters : ModuleRest)) mrc
             (redirectedReference parameters))
       (fun located =>
          bind
            match resolvedModule located with
            | Some r =>
                bind (lift (normalizePath containingFile))
                  (fun containingFilePath =>
                     addDependency containingFilePath (resolvedFileName r))
            | None => ret tt
            end
            (fun _ => ret (resolvedModule located)))).

Lemma dependencyCollection_single_op (b : BaseHost) mrc op :
  base_resolveModuleNames b = None ->
  resolveModuleNames (withDependencyCollection (host_of b) mrc) = Some op ->
  op = fun names containingFile parameters =>
         mapM (dependencyCollection_lookup containingFile parameters mrc) names.
Proof.
  intros Hb. unfold augmentHostWithDependencyCollection, host_of. cbn.
  rewrite Hb. cbn. by intros [= <-].
Qed.

(** One lookup of the fallback path, whatever the collaborators do. *)
Lemma dependencyCollection_lookup_any containingFile parameters mrc name
    (w : World) :
  exists o0 w',
    tsResolveModuleName name containingFile (options parameters) mrc
      (redirectedReference parameters) (ext w) = (o0, ext w') /\
    dependencyCollection_lookup containingFile parameters mrc name w
      = (match o0 with
         | Returned located =>
             match resolvedModule located, normalizePath containingFile with
             | Some _, Thrown e => Thrown e
             | _, _ => Returned (resolvedModule located)
             end
         | Thrown e => Thrown e
         end, w') /\
    trace w' = trace w
                 ++ [EvTsResolveModuleName name containingFile
                       (options parameters) mrc
                       (redirectedReference parameters) o0] /\
    dependencies w'
      = graph_after normalizePath containingFile
          (module_targets
             (EvTsResolveModuleName name containingFile (options parameters)
                mrc (redirectedReference parameters) o0 : Event))
          (dependencies w) /\
    files w' = files w /\ cache w' = cache w.
Proof.
  unfold ts_resolveModuleName.
  destruct (extern_any
              (EvTsResolveModuleName name containingFile (options parameters)
                 mrc (redirectedReference parameters))
              (tsResolveModuleName name containingFile (options parameters)
                 mrc (redirectedReference parameters)) w)
    as (o0 & w1 & Hrun & Hcall & Htr & Hfiles & Hdeps & Hcache).
  destruct o0 as [located|e].
  - rewrite (bind_returned _ _ _ _ _ Hrun). unfold graph_after. cbn.
    destruct (resolvedModule located) as [r|] eqn:Hres; cbn.
    + unfold lift, bind, addDependency. cbn.
      destruct (normalizePath containingFile) as [q|e]; cbn.
      * exists (Returned located),
               (set_dependencies
                  (addEdge q (resolvedFileName r) (dependencies w1)) w1).
        cbn. rewrite Hres. cbn.
        split; [exact Hcall|]. split; [reflexivity|]. cbn.
        rewrite Hdeps. done.
      * exists (Returned located), w1. rewrite Hres. done.
    + exists (Returned located), w1. unfold bind, ret. rewrite Hres. cbn.
      split; [done|]. split; [done|]. split; [done|].
      split; [|done]. by destruct (normalizePath containingFile).
  - rewrite (bind_thrown _ _ _ _ _ Hrun).
    exists (Thrown e), w1. unfold graph_after. cbn.
    split; [done|]. split; [done|]. split; [done|].
    split; [|done]. by destruct (normalizePath containingFile).
Qed.

(** The fallback path, whatever the collaborators do: the graph after the
    call is the graph before it with the targets found by the lookups of the
    call recorded under the normalized containing file. *)
Lemma dependencyCollection_single_any containingFile parameters mrc names
    (w : World) :
  exists o w' delta,
    mapM (dependencyCollection_lookup containingFile parameters mrc) names w
      = (o, w') /\
    trace w' = trace w ++ delta /\
    dependencies w'
      = graph_after normalizePath containingFile (delta ≫= module_targets)
          (dependencies w) /\
    files w' = files w /\ cache w' = cache w.
Proof.
  revert w. induction names as [|n names IH]; intros w.
  - exists (Returned []), w, []. cbn. rewrite app_nil_r.
    unfold graph_after. cbn. by destruct (normalizePath containingFile).
  - destruct (dependencyCollection_lookup_any containingFile parameters mrc n w)
      as (o0 & w1 & _ & Hrun & Htr & Hd & Hfiles & Hcache).
    set (ev := EvTsResolveModuleName n containingFile (options parameters)
                 mrc (redirectedReference parameters) o0) in *.
    cbn [mapM].
    match type of Hrun with _ = (?o, _) => destruct o as [r|e] eqn:Ho end.
    + rewrite (bind_returned _ _ _ _ _ Hrun).
      destruct (IH w1) as (o & w2 & delta & Hrest & Htr2 & Hd2 & Hfiles2 & Hcache2).
      exists (match o with Returned bs => Returned (r :: bs) | Thrown e => Thrown e end),
             w2, (ev :: delta).
      split.
      { unfold bind at 1. rewrite Hrest. by destruct o. }
      split; [rewrite Htr2, Htr; by rewrite <- app_assoc|].
      split; [|by rewrite Hfiles2, Hcache2].
      rewrite Hd2, Hd. rewrite bind_cons. by rewrite graph_after_app.
    + rewrite (bind_thrown _ _ _ _ _ Hrun).
      exists (Thrown e), w1, [ev].
      split; [done|]. split; [done|]. split; [|done].
      rewrite Hd. cbn. by rewrite app_nil_r.
Qed.

Local Abbreviation dependencyCollection_single_events containingFile parameters mrc :=
  (fun (n : string) (located : ResolvedModuleWithFailedLookupLocations) =>
     [EvTsResolveModuleName n containingFile
        (options (parameters : ModuleRest)) mrc
        (redirectedReference parameters) (Returned located) : Event]).

(** The fallback path when the collaborators return. *)
Lemma dependencyCollection_single_returned containingFile parameters mrc names
    (w : World) p :
  (forall n c o m r, returns (tsResolveModuleName n c o m r)) ->
  normalizePath containingFile = Returned p ->
  exists replies w',
    mapM (dependencyCollection_lookup containingFile parameters mrc) names w
      = (Returned (resolvedModule <$> replies), w') /\
    length replies = length names /\
    trace w' = trace w ++
      concat (zip_with
                (dependencyCollection_single_events containingFile parameters mrc)
                names replies).
Proof.
  intros Hts Hp.
  apply (mapM_returned _ resolvedModule
           (dependencyCollection_single_events containingFile parameters mrc)).
  intros n w0.
  destruct (dependencyCollection_lookup_any containingFile parameters mrc n w0)
    as (o0 & w1 & Hcall & Hrun & Htr & _).
  destruct (Hts n containingFile (options parameters) mrc
              (redirectedReference parameters) (ext w0)) as (located & e' & Hret).
  rewrite Hret in Hcall. injection Hcall as <- _.
  exists located, w1. split; [|exact Htr].
  rewrite Hrun, Hp. by destruct (resolvedModule located).
Qed.

(** ** The versioner *)

(** A [SourceFile] after the loop body ran on it. *)
Lemma versionFile_lookup sha256_hex (file : handle) (w : World) :
  exists w',
    versionFile sha256_hex file w = (Returned tt, w') /\
    (forall h,
        files w' !! h
        = if decide (h = file)
          then (fun f => {| text := text f;
                            version := Some (default (sha256_hex (text f))
                                                     (version f)) |})
                 <$> files w !! h
          else files w !! h) /\
    trace w' = trace w /\ ext w' = ext w /\
    dependencies w' = dependencies w /\ cache w' = cache w.
Proof.
  unfold versionFile.
  destruct (files w !! file) as [[t [v|]]|] eqn:Hf.
  - exists w. split; [done|]. split; [|done].
    intros h. case_decide; [subst h; by rewrite Hf|done].
  - eexists. split; [reflexivity|]. split; [|done]. cbn.
    intros h. case_decide; [subst h; by rewrite lookup_insert_eq, Hf|].
    by rewrite lookup_insert_ne.
  - exists w. split; [done|]. split; [|done].
    intros h. case_decide; [subst h; by rewrite Hf|done].
Qed.

Lemma forOf_versionFile sha256_hex (fs : list handle) (w : World) :
  exists w',
    forOf fs (versionFile sha256_hex) w = (Returned tt, w') /\
    (forall h,
        files w' !! h
        = if decide (h ∈ fs)
          then (fun f => {| text := text f;
                            version := Some (default (sha256_hex (text f))
                                                     (version f)) |})
                 <$> files w !! h
          else files w !! h) /\
    trace w' = trace w /\ ext w' = ext w /\
    dependencies w' = dependencies w /\ cache w' = cache w.
Proof.
  revert w. induction fs as [|file fs IH]; intros w.
  - exists w. split; [done|]. split; [|done]. intros h.
    case_decide as Hin; [by apply elem_of_nil in Hin|done].
  - destruct (versionFile_lookup sha256_hex file w)
      as (w1 & Hrun & Hfiles & Htr & Hext & Hd & Hc).
    destruct (IH w1) as (w2 & Hrest & Hfiles2 & Htr2 & Hext2 & Hd2 & Hc2).
    exists w2. cbn [forOf]. rewrite (bind_returned _ _ _ _ _ Hrun).
    split; [exact Hrest|].
    split; [|by rewrite Htr2, Hext2, Hd2, Hc2].
    intros h. rewrite Hfiles2, Hfiles.
    destruct (decide (h = file)) as [->|Hne].
    + rewrite (decide_True (P := file ∈ file :: fs)) by apply list_elem_of_here.
      case_decide; [|done]. by destruct (files w !! file) as [[t [v|]]|].
    + destruct (decide (h ∈ fs)) as [Hin|Hnin].
      * by rewrite (decide_True (P := h ∈ file :: fs))
          by (by apply list_elem_of_further).
      * rewrite (decide_False (P := h ∈ file :: fs)); [done|].
        intros Hin. apply elem_of_cons in Hin as [?|?]; done.
Qed.

(** ** The caching wrapper *)

Local Abbreviation withCaching :=
  (@augmentHostWithCaching Ext Exn CompilerOptions ResolvedProjectReference
     ModuleResolutionCache OnError Extra).

(** A hit: the entry is returned and nothing happens. *)
Lemma caching_hit (b : BaseHost) fileName languageVersion (onError : OnError)
    flag (parameters : Extra) (w : World) h :
  truthy flag = false ->
  cache w !! fileName = Some h ->
  getSourceFile (withCaching (host_of b)) fileName languageVersion onError
    flag parameters w = (Returned (Some h), w).
Proof.
  intros Hflag Hhit. cbn. rewrite Hflag. cbn.
  rewrite bool_decide_eq_true_2 by (rewrite Hhit; eauto). by rewrite Hhit.
Qed.

(** Everything else goes to the base host, with [true] for
    [shouldCreateNewSourceFile]; a handle that comes back is stored. *)
Lemma caching_delegates (b : BaseHost) fileName languageVersion
    (onError : OnError) flag (parameters : Extra) (w : World) :
  truthy flag = true \/ cache w !! fileName = None ->
  exists o w',
    getSourceFile (withCaching (host_of b)) fileName languageVersion onError
      flag parameters w = (o, w') /\
    base_getSourceFile b fileName languageVersion onError (Some true)
      parameters (ext w) = (o, ext w') /\
    trace w' = trace w
                 ++ [EvGetSourceFile fileName languageVersion onError
                       (Some true) parameters o] /\
    cache w' = match o with
               | Returned (Some f) => <[fileName := f]> (cache w)
               | _ => cache w
               end /\
    files w' = files w /\ dependencies w' = dependencies w.
Proof.
  intros Hmiss. cbn.
  assert (negb (truthy flag) && bool_decide (is_Some (cache w !! fileName))
          = false) as ->.
  { destruct Hmiss as [-> | ->]; [done|].
    rewrite bool_decide_eq_false_2; [apply andb_false_r|]. by intros [? ?]. }
  destruct (extern_any
              (EvGetSourceFile fileName languageVersion onError (Some true)
                 parameters)
              (base_getSourceFile b fileName languageVersion onError
                 (Some true) parameters) w)
    as (o & w1 & Hrun & Hcall & Htr & Hfiles & Hdeps & Hcache).
  destruct o as [[f|]|e].
  - rewrite (bind_returned _ _ _ _ _ Hrun). unfold bind, ret. cbn.
    eexists _, _. split; [reflexivity|]. cbn. by rewrite Hcache.
  - rewrite (bind_returned _ _ _ _ _ Hrun). unfold bind, ret. cbn.
    by exists (Returned None), w1.
  - rewrite (bind_thrown _ _ _ _ _ Hrun). by exists (Thrown e), w1.
Qed.

(** The cache after any retrieval. *)
Lemma caching_table (b : BaseHost) fileName languageVersion
    (onError : OnError) flag (parameters : Extra) (w : World) :
  exists o w',
    getSourceFile (withCaching (host_of b)) fileName languageVersion onError
      flag parameters w = (o, w') /\
    (forall k, k <> fileName -> cache w' !! k = cache w !! k) /\
    cache w' !! fileName = match o with
                           | Returned (Some f) => Some f
                           | _ => cache w !! fileName
                           end.
Proof.
  destruct (truthy flag) eqn:Hflag;
    [|destruct (cache w !! fileName) as [h|] eqn:Hhit].
  2:{ exists (Returned (Some h)), w.
      split; [by apply caching_hit|]. by rewrite Hhit. }
  all: destruct (caching_delegates b fileName languageVersion onError flag
                   parameters w) as (o & w' & Hrun & _ & _ & Hc & _);
    [by (left + right)|].
  all: exists o, w'; split; [exact Hrun|]; rewrite Hc.
  all: destruct o as [[f|]|e]; rewrite ?Hhit;
    (split; [intros k Hk; by rewrite ?lookup_insert_ne|
             by rewrite ?lookup_insert_eq]).
Qed.

(** ** What the resolution wrappers leave in the trace *)

Lemma concat_zip_with_singleton {A C T} (g : A -> C -> T) (l : list A)
    (cs : list C) :
  concat (zip_with (fun a c => [g a c]) l cs) = zip_with g l cs.
Proof.
  revert cs. induction l as [|a l IH]; intros [|c cs]; try done.
  cbn. by rewrite IH.
Qed.

Lemma process_events_processed en n (r : option Resolution) :
  (process_events en n r : list Event) ≫= processed
  = if en then match r with Some x => [(n, x)] | None => [] end else [].
Proof. by destruct r, en. Qed.

Lemma process_events_silent {T} (X : Event -> list T) en n
    (r : option Resolution) :
  (forall m x o, X (EvProcessModule m x o) = []) ->
  (process_events en n r : list Event) ≫= X = [].
Proof. intros HX. destruct r, en; cbn; by rewrite ?HX. Qed.

Lemma successes_disabled {C B} (proj : C -> option B) (inj : B -> Resolution)
    (l : list string) (cs : list C) :
  concat (zip_with (fun a c => if false
                               then match inj <$> proj c with
                                    | Some x => [(a, x)]
                                    | None => []
                                    end
                               else []) l cs) = [].
Proof. apply concat_zip_with_nil. Qed.

Lemma successes_enabled {C B} (proj : C -> option B) (inj : B -> Resolution)
    (l : list string) (cs : list C) :
  concat (zip_with (fun a c => if true
                               then match inj <$> proj c with
                                    | Some x => [(a, x)]
                                    | None => []
                                    end
                               else []) l cs)
  = successes inj l (proj <$> cs).
Proof.
  rewrite <- concat_zip_with_successes. f_equal.
  apply zip_with_ext; [|done..]. intros a c. by destruct (proj c).
Qed.

Local Abbreviation modulesReturn := (modules_return tsResolveModuleName).
Local Abbreviation typerefsReturn :=
  (typerefs_return tsResolveTypeReferenceDirective).

(** Reads the events of a per-name run with the observation [X], given what
    [X] makes of the events of one name. *)
Local Ltac read_events X x :=
  rewrite (bind_concat_zip_with X _ x)
    by (intros; rewrite bind_cons;
        rewrite ?process_events_processed;
        rewrite ?(process_events_silent X) by done;
        reflexivity).

Lemma ngcc_modules_observed (b : BaseHost) process mrc names containingFile
    (parameters : ModuleRest) (w : World) :
  modulesReturn b -> processor_returns process ->
  exists rs w' delta,
    run_resolveModuleNames (withNgcc (host_of b) (ngcc_of <$> process) mrc)
      names containingFile parameters w (Returned rs) w' /\
    trace w' = trace w ++ delta /\
    length rs = length names /\
    delta ≫= module_answers = zip names rs /\
    delta ≫= processed
      = (if enabled process then successes inl names rs else []) /\
    match base_resolveModuleNames b with
    | Some _ =>
        delta ≫= single_lookups = [] /\
        exists replies,
          rs = first <$> replies /\ length replies = length names /\
          delta ≫= module_batches
            = zip_with (fun n reply => ([n], containingFile, parameters, reply))
                names replies
    | None =>
        delta ≫= single_lookups = (fun n => (n, mrc)) <$> names /\
        delta ≫= module_batches = []
    end.
Proof.
  unfold modules_return. intros Hts Hp.
  destruct (base_resolveModuleNames b) as [f|] eqn:Hb.
  - destruct (ngcc_modules_batched b f process mrc names containingFile
                parameters w Hb Hts Hp)
      as (replies & w' & Hrun & Hlen & Htr).
    eexists _, w', _. split; [exact Hrun|]. split; [exact Htr|].
    split; [by rewrite length_fmap|].
    split.
    { read_events (@module_answers Exn CompilerOptions ResolvedProjectReference
                     ModuleResolutionCache OnError Extra)
        (fun (n : string) (reply : list (option ResolvedModule)) =>
           [(n, first reply)]).
      by rewrite concat_zip_with_singleton, zip_with_fmap_r. }
    split.
    { read_events (@processed Exn CompilerOptions ResolvedProjectReference
                     ModuleResolutionCache OnError Extra)
        (fun (n : string) (reply : list (option ResolvedModule)) =>
           if enabled process
           then match inl <$> first reply with
                | Some x => [(n, x)]
                | None => []
                end
           else @nil (string * Resolution)).
      destruct (enabled process);
        [apply successes_enabled|apply (successes_disabled first inl)]. }
    split.
    { read_events (@single_lookups Exn CompilerOptions ResolvedProjectReference
                     ModuleResolutionCache OnError Extra)
        (fun (n : string) (reply : list (option ResolvedModule)) =>
           @nil (string * option ModuleResolutionCache)).
      apply concat_zip_with_nil. }
    exists replies. split; [done|]. split; [done|].
    read_events (@module_batches Exn CompilerOptions ResolvedProjectReference
                   ModuleResolutionCache OnError Extra)
      (fun (n : string) (reply : list (option ResolvedModule)) =>
         [([n], containingFile, parameters, reply)]).
    apply concat_zip_with_singleton.
  - destruct (ngcc_modules_single b process mrc names containingFile
                parameters w Hb Hts Hp)
      as (replies & w' & Hrun & Hlen & Htr).
    eexists _, w', _. split; [exact Hrun|]. split; [exact Htr|].
    split; [by rewrite length_fmap|].
    split.
    { read_events (@module_answers Exn CompilerOptions ResolvedProjectReference
                     ModuleResolutionCache OnError Extra)
        (fun (n : string) (located : ResolvedModuleWithFailedLookupLocations) =>
           [(n, resolvedModule located)]).
      by rewrite concat_zip_with_singleton, zip_with_fmap_r. }
    split.
    { read_events (@processed Exn CompilerOptions ResolvedProjectReference
                     ModuleResolutionCache OnError Extra)
        (fun (n : string) (located : ResolvedModuleWithFailedLookupLocations) =>
           if enabled process
           then match inl <$> resolvedModule located with
                | Some x => [(n, x)]
                | None => []
                end
           else @nil (string * Resolution)).
      destruct (enabled process);
        [apply successes_enabled|apply (successes_disabled resolvedModule inl)]. }
    split.
    { read_events (@single_lookups Exn CompilerOptions ResolvedProjectReference
                     ModuleResolutionCache OnError Extra)
        (fun (n : string) (located : ResolvedModuleWithFailedLookupLocations) =>
           [(n, mrc)]).
      by apply (concat_zip_with_const (fun n : string => (n, mrc))). }
    read_events (@module_batches Exn CompilerOptions ResolvedProjectReference
                   ModuleResolutionCache OnError Extra)
      (fun (n : string) (located : ResolvedModuleWithFailedLookupLocations) =>
         @nil (list string * string * ModuleRest * list (option ResolvedModule))).
    apply concat_zip_with_nil.
Qed.

Lemma ngcc_typerefs_observed (b : BaseHost) process mrc names containingFile
    (parameters : TypeRefRest) (w : World) :
  typerefsReturn b -> processor_returns process ->
  exists rs w' delta,
    run_resolveTypeReferenceDirectives
      (withNgcc (host_of b) (ngcc_of <$> process) mrc)
      names containingFile parameters w (Returned rs) w' /\
    trace w' = trace w ++ delta /\
    length rs = length names /\
    delta ≫= typeref_answers = zip names rs /\
    delta ≫= processed
      = (if enabled process then successes inr names rs else []) /\
    match base_resolveTypeReferenceDirectives b with
    | Some _ =>
        delta ≫= single_lookups = [] /\
        exists replies,
          rs = first <$> replies /\ length replies = length names /\
          delta ≫= typeref_batches
            = zip_with (fun n reply => ([n], containingFile, parameters, reply))
                names replies
    | None =>
        delta ≫= single_lookups = (fun n => (n, None)) <$> names /\
        delta ≫= typeref_batches = []
    end.
Proof.
  unfold typerefs_return. intros Hts Hp.
  destruct (base_resolveTypeReferenceDirectives b) as [g|] eqn:Hb.
  - destruct (ngcc_typerefs_batched b g process mrc names containingFile
                parameters w Hb Hts Hp)
      as (replies & w' & Hrun & Hlen & Htr).
    eexists _, w', _. split; [exact Hrun|]. split; [exact Htr|].
    split; [by rewrite length_fmap|].
    split.
    { read_events (@typeref_answers Exn CompilerOptions ResolvedProjectReference
                     ModuleResolutionCache OnError Extra)
        (fun (n : string)
             (reply : list (option ResolvedTypeReferenceDirective)) =>
           [(n, first reply)]).
      by rewrite concat_zip_with_singleton, zip_with_fmap_r. }
    split.
    { read_events (@processed Exn CompilerOptions ResolvedProjectReference
                     ModuleResolutionCache OnError Extra)
        (fun (n : string)
             (reply : list (option ResolvedTypeReferenceDirective)) =>
           if enabled process
           then match inr <$> first reply with
                | Some x => [(n, x)]
                | None => []
                end
           else @nil (string * Resolution)).
      destruct (enabled process);
        [apply successes_enabled|apply (successes_disabled first inr)]. }
    split.
    { read_events (@single_lookups Exn CompilerOptions ResolvedProjectReference
                     ModuleResolutionCache OnError Extra)
        (fun (n : string)
             (reply : list (option ResolvedTypeReferenceDirective)) =>
           @nil (string * option ModuleResolutionCache)).
      apply concat_zip_with_nil. }
    exists replies. split; [done|]. split; [done|].
    read_events (@typeref_batches Exn CompilerOptions ResolvedProjectReference
                   ModuleResolutionCache OnError Extra)
      (fun (n : string)
           (reply : list (option ResolvedTypeReferenceDirective)) =>
         [([n], containingFile, parameters, reply)]).
    apply concat_zip_with_singleton.
  - destruct (ngcc_typerefs_single b process mrc names containingFile
                parameters w Hb Hts Hp)
      as (replies & w' & Hrun & Hlen & Htr).
    eexists _, w', _. split; [exact Hrun|]. split; [exact Htr|].
    split; [by rewrite length_fmap|].
    split.
    { read_events (@typeref_answers Exn CompilerOptions ResolvedProjectReference
                     ModuleResolutionCache OnError Extra)
        (fun (n : string)
             (located : ResolvedTypeReferenceDirectiveWithFailedLookupLocations) =>
           [(n, resolvedTypeReferenceDirective located)]).
      by rewrite concat_zip_with_singleton, zip_with_fmap_r. }
    split.
    { read_events (@processed Exn CompilerOptions ResolvedProjectReference
                     ModuleResolutionCache OnError Extra)
        (fun (n : string)
             (located : ResolvedTypeReferenceDirectiveWithFailedLookupLocations) =>
           if enabled process
           then match inr <$> resolvedTypeReferenceDirective located with
                | Some x => [(n, x)]
                | None => []
                end
           else @nil (string * Resolution)).
      destruct (enabled process);
        [apply successes_enabled
        |apply (successes_disabled resolvedTypeReferenceDirective inr)]. }
    split.
    { read_events (@single_lookups Exn CompilerOptions ResolvedProjectReference
                     ModuleResolutionCache OnError Extra)
        (fun (n : string)
             (located : ResolvedTypeReferenceDirectiveWithFailedLookupLocations) =>
           [(n, @None ModuleResolutionCache)]).
      by apply (concat_zip_with_const
                  (fun n : string => (n, @None ModuleResolutionCache))). }
    read_events (@typeref_batches Exn CompilerOptions ResolvedProjectReference
                   ModuleResolutionCache OnError Extra)
      (fun (n : string)
           (located : ResolvedTypeReferenceDirectiveWithFailedLookupLocations) =>
         @nil (list string * string * TypeRefRest *
               list (option ResolvedTypeReferenceDirective))).
    apply concat_zip_with_nil.
Qed.

Lemma dependencyCollection_observed (b : BaseHost) mrc names containingFile
    (parameters : ModuleRest) (w : World) p :
  modulesReturn b -> honours_batch b ->
  normalizePath containingFile = Returned p ->
  exists rs w' delta,
    run_resolveModuleNames (withDependencyCollection (host_of b) mrc)
      names containingFile parameters w (Returned rs) w' /\
    trace w' = trace w ++ delta /\
    length rs = length names /\
    delta ≫= module_answers = zip names rs /\
    match base_resolveModuleNames b with
    | Some f =>
        exists e',
          f names containingFile parameters (ext w) = (Returned rs, e') /\
          delta = [EvResolveModuleNames names containingFile parameters
                     (Returned rs)]
    | None => delta ≫= single_lookups = (fun n => (n, mrc)) <$> names
    end.
Proof.
  unfold modules_return. intros Hts Hlen Hp.
  destruct (dependencyCollection_installs (host_of b) mrc) as [op Hop].
  destruct (base_resolveModuleNames b) as [f|] eqn:Hb.
  - destruct (dependencyCollection_batched b f mrc op names containingFile
                parameters w Hb Hop)
      as (o0 & w' & Hcall & Hrun & Htr & _).
    destruct (Hts names containingFile parameters (ext w))
      as (reply & e' & Hret).
    pose proof (Hlen f Hb _ _ _ _ _ _ Hret) as Hn.
    rewrite Hret in Hcall. injection Hcall as <- He'.
    rewrite Hp in Hrun.
    exists reply, w', [EvResolveModuleNames names containingFile parameters
                         (Returned reply)].
    split; [by exists op|]. split; [exact Htr|]. split; [exact Hn|].
    split; [cbn; rewrite app_nil_r; by apply answered_zip|].
    by exists e'.
  - pose proof (dependencyCollection_single_op b mrc op Hb Hop) as ->.
    destruct (dependencyCollection_single_returned containingFile parameters
                mrc names w p Hts Hp) as (replies & w' & Hrun & Hn & Htr).
    eexists _, w', _. split; [by eexists|]. split; [exact Htr|].
    split; [by rewrite length_fmap|].
    split.
    + rewrite (bind_concat_zip_with module_answers _
                 (fun (n : string)
                      (located : ResolvedModuleWithFailedLookupLocations) =>
                    [(n, resolvedModule located)])) by done.
      by rewrite concat_zip_with_singleton, zip_with_fmap_r.
    + rewrite (bind_concat_zip_with single_lookups _
                 (fun (n : string)
                      (located : ResolvedModuleWithFailedLookupLocations) =>
                    [(n, mrc)])) by done.
      by apply (concat_zip_with_const (fun n : string => (n, mrc))).
Qed.

(** After a call of the wrapped resolver, whatever its outcome, the graph is
    the graph before it with the targets the call obtained recorded under the
    normalized containing file. *)
Lemma dependencyCollection_graph (b : BaseHost) mrc names containingFile
    (parameters : ModuleRest) (w : World) o w' :
  run_resolveModuleNames (withDependencyCollection (host_of b) mrc)
    names containingFile parameters w o w' ->
  exists delta,
    trace w' = trace w ++ delta /\
    dependencies w'
      = graph_after normalizePath containingFile (delta ≫= module_targets)
          (dependencies w).
Proof.
  intros (op & Hop & Hrun).
  destruct (base_resolveModuleNames b) as [f|] eqn:Hb.
  - destruct (dependencyCollection_batched b f mrc op names containingFile
                parameters w Hb Hop)
      as (o0 & w1 & _ & Hrun1 & Htr & Hd & _).
    rewrite Hrun1 in Hrun. injection Hrun as _ <-.
    eexists. split; [exact Htr|]. rewrite Hd. cbn. by rewrite app_nil_r.
  - pose proof (dependencyCollection_single_op b mrc op Hb Hop) as ->.
    destruct (dependencyCollection_single_any containingFile parameters mrc
                names w) as (o1 & w1 & delta & Hrun1 & Htr & Hd & _).
    rewrite Hrun1 in Hrun. injection Hrun as _ <-.
    by exists delta.
Qed.

Lemma graph_after_lookup containingFile ts (d : gmap string (gset string)) k s m :
  graph_after normalizePath containingFile ts d !! k = Some s -> m ∈ s ->
  (exists s0, d !! k = Some s0 /\ m ∈ s0) \/
  (normalizePath containingFile = Returned k /\ m ∈ ts).
Proof.
  clear tsResolveModuleName tsResolveTypeReferenceDirective.
  unfold graph_after.
  destruct (normalizePath containingFile) as [p|e]; [|by eauto].
  destruct (decide (k = p)) as [->|Hne].
  - destruct ts as [|t ts]; [by eauto|].
    rewrite addEdges_lookup by done. intros [= <-] Hm.
    apply elem_of_union in Hm as [Hm|Hm].
    + left. destruct (d !! p) as [s0|]; [by eauto|]. set_solver.
    + right. split; [done|].
      apply (elem_of_list_to_set (C := gset string)). exact Hm.
  - rewrite addEdges_lookup_ne by done. by eauto.
Qed.

Lemma graph_after_keys containingFile ts (d : gmap string (gset string)) k :
  is_Some (graph_after normalizePath containingFile ts d !! k) ->
  is_Some (d !! k) \/ normalizePath containingFile = Returned k.
Proof.
  unfold graph_after.
  destruct (normalizePath containingFile) as [p|e]; [|by eauto].
  destruct (decide (k = p)) as [->|Hne]; [by right|].
  rewrite addEdges_lookup_ne by done. by left.
Qed.

(** * The claims *)

(** C1.  Result-shape preservation.  For a batch of [n] names, each wrapped
    resolution operation -- the dependency-collection wrapper and the ngcc
    wrappers for module names and for type-reference directives, over a base
    host with or without a batched resolver -- returns [n] results, and the
    result at each position is the resolution the underlying resolver gave
    for the name at that position.  The resolvers and the processor are
    taken to return normally; for the dependency-collection wrapper, which
    hands on the reply of the base host as it is and normalizes the
    containing file, the base host answers with one result per name and
    [normalizePath] returns. *)
Theorem resolution_results_keep_shape (b : BaseHost) process mrc names
    containingFile (parameters : ModuleRest) (typeParameters : TypeRefRest)
    (w : World) :
  modulesReturn b -> typerefsReturn b -> processor_returns process ->
  (honours_batch b ->
   (exists p, normalizePath containingFile = Returned p) ->
   exists rs w' delta,
     run_resolveModuleNames (withDependencyCollection (host_of b) mrc)
       names containingFile parameters w (Returned rs) w' /\
     trace w' = trace w ++ delta /\
     length rs = length names /\
     delta ≫= module_answers = zip names rs) /\
  (exists rs w' delta,
     run_resolveModuleNames (withNgcc (host_of b) (ngcc_of <$> process) mrc)
       names containingFile parameters w (Returned rs) w' /\
     trace w' = trace w ++ delta /\
     length rs = length names /\
     delta ≫= module_answers = zip names rs) /\
  (exists rs w' delta,
     run_resolveTypeReferenceDirectives
       (withNgcc (host_of b) (ngcc_of <$> process) mrc)
       names containingFile typeParameters w (Returned rs) w' /\
     trace w' = trace w ++ delta /\
     length rs = length names /\
     delta ≫= typeref_answers = zip names rs).
Proof.
  intros Hm Ht Hp. split; [|split].
  - intros Hlen [p Hnorm].
    destruct (dependencyCollection_observed b mrc names containingFile
                parameters w p Hm Hlen Hnorm)
      as (rs & w' & delta & Hrun & Htr & Hn & Hans & _).
    by exists rs, w', delta.
  - destruct (ngcc_modules_observed b process mrc names containingFile
                parameters w Hm Hp)
      as (rs & w' & delta & Hrun & Htr & Hn & Hans & _).
    by exists rs, w', delta.
  - destruct (ngcc_typerefs_observed b process mrc names containingFile
                typeParameters w Ht Hp)
      as (rs & w' & delta & Hrun & Htr & Hn & Hans & _).
    by exists rs, w', delta.
Qed.

(** C2.  Post-processing pass-through.  On every path of the ngcc wrappers
    (module names and type-reference directives, each over a base host with
    or without the batched resolver of that surface), one resolution call
    returns one result per name, each as the resolver gave it for that name
    -- an absent resolution as absence -- and the calls of [processModule]
    made during the call are exactly the names that resolved, each once and
    with its resolution, in batch order: an absent resolution is never
    passed on. *)
Theorem ngcc_processes_each_success_once (b : BaseHost) p mrc names
    containingFile (parameters : ModuleRest) (typeParameters : TypeRefRest)
    (w : World) :
  (forall n x, returns (p n x)) ->
  (modulesReturn b ->
   exists rs w' delta,
     run_resolveModuleNames (withNgcc (host_of b) (Some (ngcc_of p)) mrc)
       names containingFile parameters w (Returned rs) w' /\
     trace w' = trace w ++ delta /\
     length rs = length names /\
     delta ≫= module_answers = zip names rs /\
     delta ≫= processed = successes inl names rs) /\
  (typerefsReturn b ->
   exists rs w' delta,
     run_resolveTypeReferenceDirectives
       (withNgcc (host_of b) (Some (ngcc_of p)) mrc)
       names containingFile typeParameters w (Returned rs) w' /\
     trace w' = trace w ++ delta /\
     length rs = length names /\
     delta ≫= typeref_answers = zip names rs /\
     delta ≫= processed = successes inr names rs).
Proof.
  intros Hp.
  assert (processor_returns (Some p)) as Hp' by (by intros ? [= <-]).
  split.
  - intros Hm.
    destruct (ngcc_modules_observed b (Some p) mrc names containingFile
                parameters w Hm Hp')
      as (rs & w' & delta & Hrun & Htr & Hlen & Hans & Hproc & _).
    rewrite bool_decide_eq_true_2 in Hproc by eauto.
    by exists rs, w', delta.
  - intros Ht.
    destruct (ngcc_typerefs_observed b (Some p) mrc names containingFile
                typeParameters w Ht Hp')
      as (rs & w' & delta & Hrun & Htr & Hlen & Hans & Hproc & _).
    rewrite bool_decide_eq_true_2 in Hproc by eauto.
    by exists rs, w', delta.
Qed.

(** C8, as amended.  Each surface on its own: on a base host without
    [resolveModuleNames], every single-name lookup of the
    dependency-collection wrapper and of the ngcc module-name wrapper gets
    the resolution-cache token given to the augmentation, one lookup per
    name; on a base host without [resolveTypeReferenceDirectives], the
    lookups of the ngcc type-reference wrapper, one per name, get no cache
    argument. *)
Theorem fallback_lookups_and_the_cache_token (b : BaseHost) process mrc names
    containingFile (parameters : ModuleRest) (typeParameters : TypeRefRest)
    (w : World) :
  (base_resolveModuleNames b = None ->
   (forall n c o m r, returns (tsResolveModuleName n c o m r)) ->
   ((exists p, normalizePath containingFile = Returned p) ->
    exists rs w' delta,
      run_resolveModuleNames (withDependencyCollection (host_of b) mrc)
        names containingFile parameters w (Returned rs) w' /\
      trace w' = trace w ++ delta /\
      length rs = length names /\
      delta ≫= single_lookups = (fun n => (n, mrc)) <$> names) /\
   (processor_returns process ->
    exists rs w' delta,
      run_resolveModuleNames (withNgcc (host_of b) (ngcc_of <$> process) mrc)
        names containingFile parameters w (Returned rs) w' /\
      trace w' = trace w ++ delta /\
      length rs = length names /\
      delta ≫= single_lookups = (fun n => (n, mrc)) <$> names)) /\
  (base_resolveTypeReferenceDirectives b = None ->
   (forall n c o r, returns (tsResolveTypeReferenceDirective n c o r)) ->
   processor_returns process ->
   exists rs w' delta,
     run_resolveTypeReferenceDirectives
       (withNgcc (host_of b) (ngcc_of <$> process) mrc)
       names containingFile typeParameters w (Returned rs) w' /\
     trace w' = trace w ++ delta /\
     length rs = length names /\
     delta ≫= single_lookups = (fun n => (n, None)) <$> names).
Proof.
  split.
  - intros Hbm Hts.
    assert (modulesReturn b) as Hm by (unfold modules_return; by rewrite Hbm).
    split.
    + intros [p Hnorm].
      assert (honours_batch b) as Hlen.
      { intros f Hf. by rewrite Hbm in Hf. }
      destruct (dependencyCollection_observed b mrc names containingFile
                  parameters w p Hm Hlen Hnorm)
        as (rs & w' & delta & Hrun & Htr & Hn & _ & Hlook).
      rewrite Hbm in Hlook. by exists rs, w', delta.
    + intros Hp.
      destruct (ngcc_modules_observed b process mrc names containingFile
                  parameters w Hm Hp)
        as (rs & w' & delta & Hrun & Htr & Hn & _ & _ & Hlook).
      rewrite Hbm in Hlook. destruct Hlook as [Hlook _].
      by exists rs, w', delta.
  - intros Hbt Hts Hp.
    assert (typerefsReturn b) as Ht
      by (unfold typerefs_return; by rewrite Hbt).
    destruct (ngcc_typerefs_observed b process mrc names containingFile
                typeParameters w Ht Hp)
      as (rs & w' & delta & Hrun & Htr & Hn & _ & _ & Hlook).
    rewrite Hbt in Hlook. destruct Hlook as [Hlook _].
    by exists rs, w', delta.
Qed.

(** C9.  Each surface on its own: over a base host with the batched resolver
    of a surface, the ngcc wrapper of that surface calls the base resolver
    once per name, each time with that name alone and the caller's other
    arguments, and never the single-name resolver; the result for a name is
    the first element of the reply to its call, handed to [processModule]
    when present. *)
Theorem ngcc_splits_batches_into_single_names (b : BaseHost) process mrc
    names containingFile (parameters : ModuleRest)
    (typeParameters : TypeRefRest) (w : World) :
  processor_returns process ->
  (forall f,
     base_resolveModuleNames b = Some f ->
     (forall ns c r, returns (f ns c r)) ->
     exists replies w' delta,
       run_resolveModuleNames (withNgcc (host_of b) (ngcc_of <$> process) mrc)
         names containingFile parameters w (Returned (first <$> replies)) w' /\
       trace w' = trace w ++ delta /\
       length replies = length names /\
       delta ≫= module_batches
         = zip_with (fun n reply => ([n], containingFile, parameters, reply))
             names replies /\
       delta ≫= single_lookups = [] /\
       delta ≫= processed
         = (if enabled process
            then successes inl names (first <$> replies) else [])) /\
  (forall g,
     base_resolveTypeReferenceDirectives b = Some g ->
     (forall ns c r, returns (g ns c r)) ->
     exists replies w' delta,
       run_resolveTypeReferenceDirectives
         (withNgcc (host_of b) (ngcc_of <$> process) mrc)
         names containingFile typeParameters w
         (Returned (first <$> replies)) w' /\
       trace w' = trace w ++ delta /\
       length replies = length names /\
       delta ≫= typeref_batches
         = zip_with (fun n reply => ([n], containingFile, typeParameters, reply))
             names replies /\
       delta ≫= single_lookups = [] /\
       delta ≫= processed
         = (if enabled process
            then successes inr names (first <$> replies) else [])).
Proof.
  intros Hp. split.
  - intros f Hbm Hf.
    assert (modulesReturn b) as Hm by (unfold modules_return; by rewrite Hbm).
    destruct (ngcc_modules_observed b process mrc names containingFile
                parameters w Hm Hp)
      as (rs & w' & delta & Hrun & Htr & _ & _ & Hproc & Hshape).
    rewrite Hbm in Hshape.
    destruct Hshape as (Hlook & replies & -> & Hlen & Hbatches).
    by exists replies, w', delta.
  - intros g Hbt Hg.
    assert (typerefsReturn b) as Ht
      by (unfold typerefs_return; by rewrite Hbt).
    destruct (ngcc_typerefs_observed b process mrc names containingFile
                typeParameters w Ht Hp)
      as (rs & w' & delta & Hrun & Htr & _ & _ & Hproc & Hshape).
    rewrite Hbt in Hshape.
    destruct Hshape as (Hlook & replies & -> & Hlen & Hbatches).
    by exists replies, w', delta.
Qed.

(** C5, as amended.  Across any call of the dependency-collection-wrapped
    [resolveModuleNames], whatever its outcome: if every key of the graph was
    a normalized path before the call, so is every key after it; and a member
    of the set of a key after the call was a member before it, or the key is
    the normalized containing file and the member is the [resolvedFileName]
    -- as the resolver reported it, not normalized by this layer -- of a
    resolution obtained during the call. *)
Theorem dependency_graph_keys_and_members (b : BaseHost) mrc names
    containingFile (parameters : ModuleRest) (w : World) o w' :
  run_resolveModuleNames (withDependencyCollection (host_of b) mrc)
    names containingFile parameters w o w' ->
  ((forall k, is_Some (dependencies w !! k) -> normalized normalizePath k) ->
   forall k, is_Some (dependencies w' !! k) -> normalized normalizePath k) /\
  (forall k s m,
      dependencies w' !! k = Some s -> m ∈ s ->
      (exists s0, dependencies w !! k = Some s0 /\ m ∈ s0) \/
      (normalizePath containingFile = Returned k /\
       exists delta, trace w' = trace w ++ delta /\
                     m ∈ delta ≫= module_targets)).
Proof.
  intros Hrun.
  destruct (dependencyCollection_graph b mrc names containingFile parameters
              w o w' Hrun) as (delta & Htr & Hd).
  split.
  - intros Hkeys k Hk. rewrite Hd in Hk.
    apply graph_after_keys in Hk as [Hk|Hk]; [by apply Hkeys|].
    by exists containingFile.
  - intros k s m Hk Hm. rewrite Hd in Hk.
    destruct (graph_after_lookup _ _ _ _ _ _ Hk Hm) as [?|[? ?]]; [by left|].
    right. split; [done|]. by exists delta.
Qed.

(** The fallback path when the lookups return and [normalizePath] rejects
    the containing file, read from the trace: the names are looked up in
    order; the call throws at the first one that resolves, and returns, with
    absence for every name, only when none did. *)
Lemma dependencyCollection_single_rejected containingFile parameters mrc names
    (w : World) e :
  (forall n c o m r, returns (tsResolveModuleName n c o m r)) ->
  normalizePath containingFile = Thrown e ->
  exists o w' delta,
    mapM (dependencyCollection_lookup containingFile parameters mrc) names w
      = (o, w') /\
    trace w' = trace w ++ delta /\
    ((o = Returned (replicate (length names) None) /\
      delta ≫= module_answers
        = zip names (replicate (length names) None)) \/
     (exists k name r,
        names !! k = Some name /\ o = Thrown e /\
        delta ≫= module_answers
          = zip (take k names) (replicate k None) ++ [(name, Some r)])).
Proof.
  intros Hts He. revert w. induction names as [|n names IH]; intros w.
  - exists (Returned []), w, []. split; [done|].
    split; [by rewrite app_nil_r|]. by left.
  - destruct (dependencyCollection_lookup_any containingFile parameters mrc n w)
      as (o0 & w1 & Hcall & Hrun & Htr & _).
    destruct (Hts n containingFile (options parameters) mrc
                (redirectedReference parameters) (ext w)) as (located & e' & Hret).
    rewrite Hret in Hcall. injection Hcall as <- _.
    cbn [mapM].
    assert (exists o1,
      dependencyCollection_lookup containingFile parameters mrc n w = (o1, w1) /\
      o1 = match resolvedModule located with
           | Some _ => Thrown e
           | None => Returned None
           end) as (o1 & Hrun1 & Ho1).
    { eexists. split; [exact Hrun|]. rewrite He.
      by destruct (resolvedModule located). }
    clear Hrun. rename Hrun1 into Hrun. subst o1.
    destruct (resolvedModule located) as [r|] eqn:Hres.
    + rewrite (bind_thrown _ _ _ _ _ Hrun). eexists (Thrown e), w1, _.
      split; [done|]. split; [exact Htr|].
      right. exists 0, n, r. split; [done|]. split; [done|].
      cbn. by rewrite Hres.
    + rewrite (bind_returned _ _ _ _ _ Hrun).
      destruct (IH w1) as (o & w2 & delta & Hrest & Htr2 & Hcases).
      destruct Hcases as [[-> Hans]|(k & name & r & Hk & -> & Hans)].
      * rewrite (bind_returned _ _ _ _ _ Hrest). eexists _, w2, (_ :: delta).
        split; [reflexivity|].
        split; [rewrite Htr2, Htr; by rewrite <- app_assoc|].
        left. split; [done|]. rewrite bind_cons, Hans. cbn. by rewrite Hres.
      * rewrite (bind_thrown _ _ _ _ _ Hrest). eexists (Thrown e), w2, (_ :: delta).
        split; [done|].
        split; [rewrite Htr2, Htr; by rewrite <- app_assoc|].
        right. exists (S k), name, r. split; [done|]. split; [done|].
        rewrite bind_cons, Hans. cbn. by rewrite Hres.
Qed.

(** C6, as amended.  The dependency-collection wrapper has no handler around
    its bookkeeping.  When [normalizePath] accepts the containing file, the
    results of the underlying resolver are returned as they are, one per
    name on the fallback path.  When it throws, the exception is the outcome
    of the call and nothing is recorded: on the batched path always; on the
    fallback path the names are looked up in order, the call throws at the
    first name that resolves, and it returns -- absence for every name --
    only when every lookup of the call answered with absence. *)
Theorem recording_failure_reaches_the_caller (b : BaseHost) mrc names
    containingFile (parameters : ModuleRest) (w : World) :
  (forall f results e',
      base_resolveModuleNames b = Some f ->
      f names containingFile parameters (ext w) = (Returned results, e') ->
      exists w',
        run_resolveModuleNames (withDependencyCollection (host_of b) mrc)
          names containingFile parameters w
          (match normalizePath containingFile with
           | Returned _ => Returned results
           | Thrown e => Thrown e
           end) w' /\
        (forall e, normalizePath containingFile = Thrown e ->
                   dependencies w' = dependencies w)) /\
  (base_resolveModuleNames b = None ->
   (forall n c o m r, returns (tsResolveModuleName n c o m r)) ->
   (forall p, normalizePath containingFile = Returned p ->
      exists rs w' delta,
        run_resolveModuleNames (withDependencyCollection (host_of b) mrc)
          names containingFile parameters w (Returned rs) w' /\
        trace w' = trace w ++ delta /\
        length rs = length names /\
        delta ≫= module_answers = zip names rs) /\
   (forall e, normalizePath containingFile = Thrown e ->
      exists o w' delta,
        run_resolveModuleNames (withDependencyCollection (host_of b) mrc)
          names containingFile parameters w o w' /\
        trace w' = trace w ++ delta /\
        dependencies w' = dependencies w /\
        ((o = Returned (replicate (length names) None) /\
          delta ≫= module_answers
            = zip names (replicate (length names) None)) \/
         (exists k name r,
            names !! k = Some name /\ o = Thrown e /\
            delta ≫= module_answers
              = zip (take k names) (replicate k None) ++ [(name, Some r)])))).
Proof.
  destruct (dependencyCollection_installs (host_of b) mrc) as [op Hop].
  split.
  - intros f results e' Hb Hret.
    destruct (dependencyCollection_batched b f mrc op names containingFile
                parameters w Hb Hop)
      as (o0 & w' & Hcall & Hrun & _ & Hd & _).
    rewrite Hret in Hcall. injection Hcall as <- _.
    exists w'. split; [by exists op|].
    intros e He. rewrite Hd. unfold graph_after. by rewrite He.
  - intros Hb Hts. pose proof (dependencyCollection_single_op b mrc op Hb Hop)
      as Heq.
    split.
    + intros p Hnorm.
      assert (modulesReturn b) as Hm by (unfold modules_return; by rewrite Hb).
      assert (honours_batch b) as Hlen.
      { intros f Hf. by rewrite Hb in Hf. }
      destruct (dependencyCollection_observed b mrc names containingFile
                  parameters w p Hm Hlen Hnorm)
        as (rs & w' & delta & Hrun & Htr & Hn & Hans & _).
      by exists rs, w', delta.
    + intros e He.
      destruct (dependencyCollection_single_rejected containingFile parameters
                  mrc names w e Hts He) as (o & w' & delta & Hrun & Htr & Ho).
      exists o, w', delta.
      assert (run_resolveModuleNames (withDependencyCollection (host_of b) mrc)
                names containingFile parameters w o w') as Hrun'.
      { exists op. split; [done|]. by rewrite Heq. }
      split; [exact Hrun'|]. split; [exact Htr|]. split; [|exact Ho].
      destruct (dependencyCollection_graph b mrc names containingFile
                  parameters w o w' Hrun') as (delta' & _ & Hd).
      rewrite Hd. unfold graph_after. by rewrite He.
Qed.

(** C3.  Cache transparency.  When a retrieval that does not force a fresh
    read has returned a handle, a second retrieval of the same file name that
    does not force one either returns the same handle and leaves the world
    as it is -- the base host is not called.  A retrieval that forces a
    fresh read calls the base host whatever the cache holds.  Every call of
    the base host that a retrieval makes asks for a new source file. *)
Theorem cache_transparency (b : BaseHost) fileName :
  (forall languageVersion (onError : OnError) flag (parameters : Extra)
          (w : World) h w1 languageVersion' (onError' : OnError) flag'
          (parameters' : Extra),
      truthy flag = false -> truthy flag' = false ->
      getSourceFile (withCaching (host_of b)) fileName languageVersion
        onError flag parameters w = (Returned (Some h), w1) ->
      getSourceFile (withCaching (host_of b)) fileName languageVersion'
        onError' flag' parameters' w1 = (Returned (Some h), w1)) /\
  (forall languageVersion (onError : OnError) flag (parameters : Extra)
          (w : World),
      truthy flag = true ->
      exists o w',
        getSourceFile (withCaching (host_of b)) fileName languageVersion
          onError flag parameters w = (o, w') /\
        base_getSourceFile b fileName languageVersion onError (Some true)
          parameters (ext w) = (o, ext w') /\
        trace w' = trace w
                     ++ [EvGetSourceFile fileName languageVersion onError
                           (Some true) parameters o]) /\
  (forall languageVersion (onError : OnError) flag (parameters : Extra)
          (w : World),
      exists o w' delta,
        getSourceFile (withCaching (host_of b)) fileName languageVersion
          onError flag parameters w = (o, w') /\
        trace w' = trace w ++ delta /\
        forall x, x ∈ delta ≫= retrievals -> x = (fileName, Some true)).
Proof.
  split; [|split].
  - intros lv onError flag parameters w h w1 lv' onError' flag' parameters'
      Hflag Hflag' Hfirst.
    apply caching_hit; [done|].
    destruct (cache w !! fileName) as [h0|] eqn:Hhit.
    + rewrite (caching_hit b fileName lv onError flag parameters w h0)
        in Hfirst by done.
      by injection Hfirst as <- <-.
    + destruct (caching_delegates b fileName lv onError flag parameters w)
        as (o & w' & Hrun & _ & _ & Hc & _); [by right|].
      rewrite Hrun in Hfirst. injection Hfirst as -> <-.
      rewrite Hc. apply lookup_insert_eq.
  - intros lv onError flag parameters w Hflag.
    destruct (caching_delegates b fileName lv onError flag parameters w)
      as (o & w' & Hrun & Hcall & Htr & _); [by left|].
    by exists o, w'.
  - intros lv onError flag parameters w.
    destruct (truthy flag) eqn:Hflag;
      [|destruct (cache w !! fileName) as [h|] eqn:Hhit].
    2:{ exists (Returned (Some h)), w, [].
        split; [by apply caching_hit|]. split; [by rewrite app_nil_r|].
        intros x Hx. by apply elem_of_nil in Hx. }
    all: destruct (caching_delegates b fileName lv onError flag parameters w)
           as (o & w' & Hrun & _ & Htr & _); [by (left + right)|].
    all: eexists o, w', _; split; [exact Hrun|]; split; [exact Htr|].
    all: intros x Hx; cbn in Hx; by apply list_elem_of_singleton in Hx.
Qed.

(** C7, as amended.  A retrieval never removes a cache entry and touches no
    entry but the one of its file name; that entry is the handle the
    retrieval returned, if it returned one, and is as before otherwise.  A
    handle returned by the base host is therefore stored whether or not the
    caller forced a fresh read: a forced-fresh retrieval creates the entry
    when there was none and replaces it when there was one. *)
Theorem cache_entry_set_on_every_returned_handle (b : BaseHost) fileName
    languageVersion (onError : OnError) flag (parameters : Extra)
    (w : World) :
  exists o w',
    getSourceFile (withCaching (host_of b)) fileName languageVersion onError
      flag parameters w = (o, w') /\
    (truthy flag = true \/ cache w !! fileName = None ->
     base_getSourceFile b fileName languageVersion onError (Some true)
       parameters (ext w) = (o, ext w')) /\
    (forall k, is_Some (cache w !! k) -> is_Some (cache w' !! k)) /\
    (forall k, k <> fileName -> cache w' !! k = cache w !! k) /\
    cache w' !! fileName = match o with
                           | Returned (Some f) => Some f
                           | _ => cache w !! fileName
                           end.
Proof.
  destruct (caching_table b fileName languageVersion onError flag parameters w)
    as (o & w' & Hrun & Hother & Hentry).
  exists o, w'. split; [exact Hrun|]. split.
  { intros Hmiss.
    destruct (caching_delegates b fileName languageVersion onError flag
                parameters w Hmiss) as (o1 & w1 & Hrun1 & Hcall & _).
    rewrite Hrun1 in Hrun. by injection Hrun as <- <-. }
  split; [|done].
  intros k Hk. destruct (decide (k = fileName)) as [->|Hne].
  - rewrite Hentry. by destruct o as [[f|]|e].
  - by rewrite Hother.
Qed.

(** C10.  The cache is keyed by the file name alone: with an entry present,
    any two retrievals of that file name that do not force a fresh read
    return the cached handle and change nothing, whatever their language
    version, error callback and further arguments. *)
Theorem cache_hit_ignores_other_arguments (b : BaseHost) fileName h
    (w : World) languageVersion languageVersion' (onError onError' : OnError)
    flag flag' (parameters parameters' : Extra) :
  cache w !! fileName = Some h ->
  truthy flag = false -> truthy flag' = false ->
  getSourceFile (withCaching (host_of b)) fileName languageVersion onError
    flag parameters w = (Returned (Some h), w) /\
  getSourceFile (withCaching (host_of b)) fileName languageVersion' onError'
    flag' parameters' w = (Returned (Some h), w).
Proof. intros Hhit Hflag Hflag'. split; by apply caching_hit. Qed.

Local Abbreviation withVersioning :=
  (@augmentProgramWithVersioning Ext Exn CompilerOptions
     ResolvedProjectReference ModuleResolutionCache OnError Extra).

(** C4.  The versioner.  An enumeration through the wrapped program calls the
    original enumeration once and returns the handles it returned.  After
    it, a returned handle that had no version carries the digest of its text
    as version and one that had a version carries that version; no other
    file is touched.  A second enumeration changes none of the files the
    first one returned, so their versions after the two enumerations are
    equal. *)
Theorem versioning_is_idempotent sha256_hex
    (enumerate : Extra -> Call (list handle)) (parameters : Extra)
    (w : World) fs e' :
  enumerate parameters (ext w) = (Returned fs, e') ->
  exists w',
    getSourceFiles (withVersioning sha256_hex (program_of enumerate))
      parameters w = (Returned fs, w') /\
    trace w' = trace w ++ [EvGetSourceFiles parameters (Returned fs)] /\
    ext w' = e' /\
    (forall h f, h ∈ fs -> files w !! h = Some f -> version f = None ->
       files w' !! h
       = Some {| text := text f; version := Some (sha256_hex (text f)) |}) /\
    (forall h f v, h ∈ fs -> files w !! h = Some f -> version f = Some v ->
       files w' !! h = Some f) /\
    (forall h, h ∉ fs -> files w' !! h = files w !! h) /\
    (forall (parameters2 : Extra) fs2 e2,
       enumerate parameters2 e' = (Returned fs2, e2) ->
       exists w'',
         getSourceFiles (withVersioning sha256_hex (program_of enumerate))
           parameters2 w' = (Returned fs2, w'') /\
         forall h, h ∈ fs -> files w'' !! h = files w' !! h).
Proof.
  assert (forall (ps : Extra) (w0 : World) hs e0,
    enumerate ps (ext w0) = (Returned hs, e0) ->
    exists w1,
      getSourceFiles (withVersioning sha256_hex (program_of enumerate)) ps w0
        = (Returned hs, w1) /\
      trace w1 = trace w0 ++ [EvGetSourceFiles ps (Returned hs)] /\
      ext w1 = e0 /\
      forall h,
        files w1 !! h
        = if decide (h ∈ hs)
          then (fun f => {| text := text f;
                            version := Some (default (sha256_hex (text f))
                                                     (version f)) |})
                 <$> files w0 !! h
          else files w0 !! h) as Hcall.
  { intros ps w0 hs e0 Hret. cbn.
    destruct (extern_returned (EvGetSourceFiles ps) (enumerate ps) w0 _ _ Hret)
      as (w1 & Hrun & Htr & Hext & Hfiles & _).
    destruct (forOf_versionFile sha256_hex hs w1)
      as (w2 & Hloop & Hfiles2 & Htr2 & Hext2 & _).
    exists w2. rewrite (bind_returned _ _ _ _ _ Hrun).
    rewrite (bind_returned _ _ _ _ _ Hloop).
    split; [done|]. split; [by rewrite Htr2|]. split; [by rewrite Hext2|].
    intros h. by rewrite Hfiles2, Hfiles. }
  intros Hret.
  destruct (Hcall parameters w fs e' Hret) as (w' & Hrun & Htr & Hext & Hfiles).
  exists w'. split; [exact Hrun|]. split; [exact Htr|]. split; [exact Hext|].
  split; [|split; [|split]].
  - intros h f Hin Hf Hv. rewrite Hfiles, decide_True, Hf by done. cbn.
    by rewrite Hv.
  - intros h f v Hin Hf Hv. rewrite Hfiles, decide_True, Hf by done. cbn.
    rewrite Hv. by destruct f as [t ?]; cbn in *; subst.
  - intros h Hnin. by rewrite Hfiles, decide_False.
  - intros parameters2 fs2 e2 Hret2. rewrite <- Hext in Hret2.
    destruct (Hcall parameters2 w' fs2 e2 Hret2)
      as (w'' & Hrun2 & _ & _ & Hfiles2).
    exists w''. split; [exact Hrun2|].
    intros h Hin. rewrite Hfiles2. case_decide; [|done].
    rewrite Hfiles, decide_True by done.
    by destruct (files w !! h) as [[t [v|]]|].
Qed.

(** * Further properties of the dependency graph *)

Lemma targets_member (r : ResolvedModule) (rs : list (option ResolvedModule)) :
  Some r ∈ rs -> resolvedFileName r ∈ targets rs.
Proof.
  intros Hin. unfold targets. apply list_elem_of_omap.
  exists (Some r). by split.
Qed.

Lemma targets_app (l1 l2 : list (option ResolvedModule)) :
  targets (l1 ++ l2) = targets l1 ++ targets l2.
Proof. unfold targets. apply omap_app. Qed.

Lemma addEdges_member k ts (d : gmap string (gset string)) t :
  t ∈ ts ->
  exists s, foldl (fun d t => addEdge k t d) d ts !! k = Some s /\ t ∈ s.
Proof.
  clear normalizePath tsResolveModuleName tsResolveTypeReferenceDirective.
  intros Hin. assert (ts <> []) as Hne by (by destruct ts; [inversion Hin|]).
  rewrite addEdges_lookup by done. eexists. split; [reflexivity|].
  apply elem_of_union_r. by apply elem_of_list_to_set.
Qed.

Lemma addEdges_grow k ts (d : gmap string (gset string)) j s :
  d !! j = Some s ->
  exists s', foldl (fun d t => addEdge k t d) d ts !! j = Some s' /\ s ⊆ s'.
Proof.
  clear normalizePath tsResolveModuleName tsResolveTypeReferenceDirective.
  intros Hj. destruct (decide (j = k)) as [->|Hne].
  - destruct ts as [|t ts]; [by exists s|].
    rewrite addEdges_lookup by done. rewrite Hj. cbn.
    eexists. split; [reflexivity|]. apply union_subseteq_l.
  - rewrite addEdges_lookup_ne by done. by exists s.
Qed.

Lemma addEdges_same_set k ts ts' (d : gmap string (gset string)) :
  list_to_set ts =@{gset string} list_to_set ts' ->
  foldl (fun d t => addEdge k t d) d ts
  = foldl (fun d t => addEdge k t d) d ts'.
Proof.
  clear normalizePath tsResolveModuleName tsResolveTypeReferenceDirective.
  intros Hset. apply map_eq. intros j.
  destruct (decide (j = k)) as [->|Hne];
    [|by rewrite !addEdges_lookup_ne by done].
  destruct ts as [|t ts], ts' as [|t' ts']; [done| | |].
  - exfalso. apply (not_elem_of_empty (C := gset string) t').
    change (∅ : gset string) with (list_to_set [] : gset string).
    rewrite Hset. apply elem_of_list_to_set, list_elem_of_here.
  - exfalso. apply (not_elem_of_empty (C := gset string) t).
    change (∅ : gset string) with (list_to_set [] : gset string).
    rewrite <- Hset. apply elem_of_list_to_set, list_elem_of_here.
  - rewrite !addEdges_lookup by done. by rewrite Hset.
Qed.

(** What a returned call of the fallback path found is what it returns. *)
Lemma dependencyCollection_single_targets containingFile parameters mrc names
    (w : World) rs w' :
  mapM (dependencyCollection_lookup containingFile parameters mrc) names w
    = (Returned rs, w') ->
  exists delta,
    trace w' = trace w ++ delta /\
    delta ≫= module_targets = targets rs /\
    (targets rs <> [] -> exists p, normalizePath containingFile = Returned p).
Proof.
  revert w rs w'. induction names as [|n names IH]; intros w rs w' Hrun.
  - injection Hrun as <- <-. exists []. by rewrite app_nil_r.
  - destruct (dependencyCollection_lookup_any containingFile parameters mrc n w)
      as (o0 & w1 & _ & Hstep & Htr & _).
    cbn [mapM] in Hrun.
    match type of Hstep with _ = (?o, _) => set (o1 := o) in Hstep end.
    assert (forall x, o1 = Returned x ->
              module_targets
                (EvTsResolveModuleName n containingFile (options parameters)
                   mrc (redirectedReference parameters) o0 : Event)
              = targets [x] /\
              (targets [x] <> [] ->
               exists p, normalizePath containingFile = Returned p)) as Hfacts.
    { intros x. subst o1. clear.
      destruct o0 as [located|e]; [|done]. cbn.
      destruct (resolvedModule located) as [r|];
        destruct (normalizePath containingFile) as [p|e];
        intros [= <-]; (split; [done|]); by eauto. }
    clearbody o1. destruct o1 as [x|e];
      [|by rewrite (bind_thrown _ _ _ _ _ Hstep) in Hrun].
    rewrite (bind_returned _ _ _ _ _ Hstep) in Hrun.
    destruct (Hfacts x eq_refl) as [Hev Hnorm1].
    cbn beta in Hrun.
    match type of Hrun with
    | context [mapM ?f names] =>
        destruct (mapM f names w1) as [[bs|e] w2] eqn:Hrest
    end; [|by rewrite (bind_thrown _ _ _ _ _ Hrest) in Hrun].
    rewrite (bind_returned _ _ _ _ _ Hrest) in Hrun.
    injection Hrun as <- <-.
    destruct (IH _ _ _ Hrest) as (delta & Htr2 & Htargets & Hnorm).
    eexists (_ :: delta). split; [rewrite Htr2, Htr; by rewrite <- app_assoc|].
    split.
    + rewrite bind_cons, Htargets, Hev.
      by rewrite <- targets_app.
    + change (x :: bs) with ([x] ++ bs). rewrite targets_app.
      intros Hne. destruct (targets [x]) eqn:Hx; [by apply Hnorm|].
      by apply Hnorm1.
Qed.

(** X1.  The graph only grows: across any call of the
    dependency-collection-wrapped [resolveModuleNames], whatever its outcome,
    every key stays and its set keeps all its members. *)
Theorem dependency_graph_only_grows (b : BaseHost) mrc names containingFile
    (parameters : ModuleRest) (w : World) o w' k s :
  run_resolveModuleNames (withDependencyCollection (host_of b) mrc)
    names containingFile parameters w o w' ->
  dependencies w !! k = Some s ->
  exists s', dependencies w' !! k = Some s' /\ s ⊆ s'.
Proof.
  intros Hrun Hk.
  destruct (dependencyCollection_graph b mrc names containingFile parameters
              w o w' Hrun) as (delta & _ & ->).
  unfold graph_after. destruct (normalizePath containingFile); [|by exists s].
  by apply addEdges_grow.
Qed.

(** X2.  Every successful resolution is recorded.  When a call of the
    wrapped resolver returns, the file name of each resolution among its
    results is a member of the set of the normalized containing file; and
    whatever the outcome of the call, when [normalizePath] accepts the
    containing file every target obtained during the call is recorded, those
    obtained before an exception included. *)
Theorem successful_resolutions_are_recorded (b : BaseHost) mrc names
    containingFile (parameters : ModuleRest) (w : World) o w' :
  run_resolveModuleNames (withDependencyCollection (host_of b) mrc)
    names containingFile parameters w o w' ->
  (forall rs r,
      o = Returned rs -> Some r ∈ rs ->
      exists p s, normalizePath containingFile = Returned p /\
                  dependencies w' !! p = Some s /\ resolvedFileName r ∈ s) /\
  (forall p delta t,
      normalizePath containingFile = Returned p ->
      trace w' = trace w ++ delta -> t ∈ delta ≫= module_targets ->
      exists s, dependencies w' !! p = Some s /\ t ∈ s).
Proof.
  intros Hrun.
  destruct (dependencyCollection_graph b mrc names containingFile parameters
              w o w' Hrun) as (delta & Htr & Hd).
  assert (forall p t, normalizePath containingFile = Returned p ->
            t ∈ delta ≫= module_targets ->
            exists s, dependencies w' !! p = Some s /\ t ∈ s) as Hrec.
  { intros p t Hp Ht. rewrite Hd. unfold graph_after. rewrite Hp.
    by apply addEdges_member. }
  split.
  - intros rs r -> Hr. apply targets_member in Hr.
    destruct Hrun as (op & Hop & Hrun).
    destruct (base_resolveModuleNames b) as [f|] eqn:Hb.
    + destruct (dependencyCollection_batched b f mrc op names containingFile
                  parameters w Hb Hop)
        as (o0 & w1 & _ & Hrun1 & Htr1 & _).
      rewrite Hrun1 in Hrun. injection Hrun as Ho <-.
      rewrite Htr in Htr1. apply app_inv_head in Htr1 as ->.
      destruct o0 as [results|e]; [|done].
      destruct (normalizePath containingFile) as [p|e] eqn:Hp; [|done].
      injection Ho as ->.
      destruct (Hrec p (resolvedFileName r) eq_refl) as (s & Hs & Hin);
        [cbn; by rewrite app_nil_r|].
      by exists p, s.
    + pose proof (dependencyCollection_single_op b mrc op Hb Hop) as ->.
      destruct (dependencyCollection_single_targets _ _ _ _ _ _ _ Hrun)
        as (delta' & Htr1 & Htargets & Hnorm).
      rewrite Htr in Htr1. apply app_inv_head in Htr1 as <-.
      destruct Hnorm as [p Hp]; [by intros Hnil; rewrite Hnil in Hr;
                                  apply elem_of_nil in Hr|].
      destruct (Hrec p (resolvedFileName r) Hp) as (s & Hs & Hin);
        [by rewrite Htargets|].
      by exists p, s.
  - intros p delta' t Hp Htr' Ht.
    rewrite Htr in Htr'. apply app_inv_head in Htr' as <-. by apply Hrec.
Qed.

(** X3.  Set semantics of the graph.  Two calls with the same containing
    file that start from the same graph and obtain the same set of targets
    end with the same graph: neither the order in which targets are found
    nor how often a target is found matters. *)
Theorem dependency_graph_ignores_order_and_repeats (b1 b2 : BaseHost)
    mrc1 mrc2 names1 names2 containingFile (parameters1 parameters2 : ModuleRest)
    (w1 w2 : World) o1 o2 w1' w2' delta1 delta2 :
  run_resolveModuleNames (withDependencyCollection (host_of b1) mrc1)
    names1 containingFile parameters1 w1 o1 w1' ->
  run_resolveModuleNames (withDependencyCollection (host_of b2) mrc2)
    names2 containingFile parameters2 w2 o2 w2' ->
  trace w1' = trace w1 ++ delta1 ->
  trace w2' = trace w2 ++ delta2 ->
  dependencies w1 = dependencies w2 ->
  list_to_set (delta1 ≫= module_targets)
    =@{gset string} list_to_set (delta2 ≫= module_targets) ->
  dependencies w1' = dependencies w2'.
Proof.
  intros Hrun1 Hrun2 Htr1 Htr2 Hd Hset.
  destruct (dependencyCollection_graph b1 mrc1 names1 containingFile
              parameters1 w1 o1 w1' Hrun1) as (d1 & Htr1' & ->).
  destruct (dependencyCollection_graph b2 mrc2 names2 containingFile
              parameters2 w2 o2 w2' Hrun2) as (d2 & Htr2' & ->).
  rewrite Htr1 in Htr1'. apply app_inv_head in Htr1' as <-.
  rewrite Htr2 in Htr2'. apply app_inv_head in Htr2' as <-.
  rewrite Hd. unfold graph_after.
  destruct (normalizePath containingFile); [|done].
  by apply addEdges_same_set.
Qed.

(** X4.  The dependency-collection wrapper over any resolver.  Whatever
    [resolveModuleNames] the host has when it is augmented -- the base
    host's or one installed by another augmentation -- the wrapped call runs
    it once on the caller's arguments and then only touches the graph: it
    adds no event, hands on the results as they are (whatever their number),
    records their targets under the normalized containing file, and passes
    on an exception of the resolver without recording anything. *)
Theorem dependency_collection_over_any_resolver (host : CompilerHost) baseOp
    mrc names containingFile (parameters : ModuleRest) (w : World) o0 w1 :
  resolveModuleNames host = Some baseOp ->
  baseOp names containingFile parameters w = (o0, w1) ->
  exists w',
    run_resolveModuleNames (withDependencyCollection host mrc)
      names containingFile parameters w
      (match o0 with
       | Returned results =>
           match normalizePath containingFile with
           | Returned _ => Returned results
           | Thrown e => Thrown e
           end
       | Thrown e => Thrown e
       end) w' /\
    trace w' = trace w1 /\ ext w' = ext w1 /\
    files w' = files w1 /\ cache w' = cache w1 /\
    dependencies w'
      = graph_after normalizePath containingFile
          (match o0 with Returned results => targets results | Thrown _ => [] end)
          (dependencies w1) /\
    (forall e, o0 = Thrown e -> dependencies w' = dependencies w1).
Proof.
  intros Hhost Hbase. unfold run_resolveModuleNames.
  unfold augmentHostWithDependencyCollection. rewrite Hhost. cbn.
  destruct o0 as [results|e].
  - unfold graph_after.
    destruct (normalizePath containingFile) as [p|e] eqn:Hp.
    + destruct (forOf_addDependency p results w1)
        as (w2 & Hloop & Hd & Htr & Hext & Hfiles & Hcache).
      exists w2. split; [|done].
      eexists. split; [reflexivity|]. cbn beta.
      rewrite (bind_returned _ _ _ _ _ Hbase). unfold lift, bind at 1.
      rewrite Hp. by rewrite (bind_returned _ _ _ _ _ Hloop).
    + exists w1. split; [|done].
      eexists. split; [reflexivity|]. cbn beta.
      rewrite (bind_returned _ _ _ _ _ Hbase). unfold lift, bind at 1.
      by rewrite Hp.
  - exists w1. split.
    + eexists. split; [reflexivity|]. cbn beta.
      by rewrite (bind_thrown _ _ _ _ _ Hbase).
    + unfold graph_after. by destruct (normalizePath containingFile).
Qed.

(** X5.  Without a processor ([ngcc] falsy), the ngcc wrappers never call
    [processModule]; they still resolve name by name and return one result
    per name, each as the resolver gave it. *)
Theorem ngcc_without_processor_only_resolves (b : BaseHost) mrc names
    containingFile (parameters : ModuleRest) (typeParameters : TypeRefRest)
    (w : World) :
  modulesReturn b -> typerefsReturn b ->
  (exists rs w' delta,
     run_resolveModuleNames (withNgcc (host_of b) None mrc)
       names containingFile parameters w (Returned rs) w' /\
     trace w' = trace w ++ delta /\
     length rs = length names /\
     delta ≫= module_answers = zip names rs /\
     delta ≫= processed = []) /\
  (exists rs w' delta,
     run_resolveTypeReferenceDirectives (withNgcc (host_of b) None mrc)
       names containingFile typeParameters w (Returned rs) w' /\
     trace w' = trace w ++ delta /\
     length rs = length names /\
     delta ≫= typeref_answers = zip names rs /\
     delta ≫= processed = []).
Proof.
  intros Hm Ht.
  assert (processor_returns (Ext := Ext) (Exn := Exn) None) as Hp by done.
  split.
  - destruct (ngcc_modules_observed b None mrc names containingFile
                parameters w Hm Hp)
      as (rs & w' & delta & Hrun & Htr & Hlen & Hans & Hproc & _).
    rewrite bool_decide_eq_false_2 in Hproc by (by intros [? ?]).
    by exists rs, w', delta.
  - destruct (ngcc_typerefs_observed b None mrc names containingFile
                typeParameters w Ht Hp)
      as (rs & w' & delta & Hrun & Htr & Hlen & Hans & Hproc & _).
    rewrite bool_decide_eq_false_2 in Hproc by (by intros [? ?]).
    by exists rs, w', delta.
Qed.

(** * Further properties of the cache *)

(** X6.  Failures are not cached.  When a retrieval reaches the base host
    and the base host returns [undefined] or throws, the caller gets that
    outcome, the cache is left as it was, and a later retrieval of a file
    name without entry calls the base host again. *)
Theorem cache_keeps_failures_out (b : BaseHost) fileName languageVersion
    (onError : OnError) flag (parameters : Extra) (w : World) o e' :
  truthy flag = true \/ cache w !! fileName = None ->
  base_getSourceFile b fileName languageVersion onError (Some true)
    parameters (ext w) = (o, e') ->
  o = Returned None \/ (exists e, o = Thrown e) ->
  exists w',
    getSourceFile (withCaching (host_of b)) fileName languageVersion onError
      flag parameters w = (o, w') /\
    cache w' = cache w /\ ext w' = e' /\
    trace w' = trace w
                 ++ [EvGetSourceFile fileName languageVersion onError
                       (Some true) parameters o] /\
    (cache w !! fileName = None ->
     forall languageVersion' (onError' : OnError) flag' (parameters' : Extra),
       exists o2 w'',
         getSourceFile (withCaching (host_of b)) fileName languageVersion'
           onError' flag' parameters' w' = (o2, w'') /\
         trace w'' = trace w'
                       ++ [EvGetSourceFile fileName languageVersion' onError'
                             (Some true) parameters' o2]).
Proof.
  intros Hmiss Hbase Hfail.
  destruct (caching_delegates b fileName languageVersion onError flag
              parameters w Hmiss)
    as (o1 & w' & Hrun & Hcall & Htr & Hc & _).
  rewrite Hbase in Hcall. injection Hcall as <- He'.
  exists w'. split; [exact Hrun|].
  assert (cache w' = cache w) as Hcache.
  { rewrite Hc. by destruct Hfail as [->|[e ->]]. }
  split; [exact Hcache|]. split; [done|]. split; [exact Htr|].
  intros Hnone lv' onError' flag' parameters'.
  destruct (caching_delegates b fileName lv' onError' flag' parameters' w')
    as (o2 & w'' & Hrun2 & _ & Htr2 & _); [right; by rewrite Hcache|].
  by exists o2, w''.
Qed.

(** X7.  A forced-fresh retrieval refreshes the cache.  When the caller
    forces a fresh read and the base host returns a handle, that handle
    replaces whatever the cache held for the file name, and the following
    retrievals that do not force a fresh read return it without calling the
    base host. *)
Theorem forced_fresh_retrieval_refreshes_the_cache (b : BaseHost) fileName
    languageVersion (onError : OnError) flag (parameters : Extra)
    (w : World) h e' :
  truthy flag = true ->
  base_getSourceFile b fileName languageVersion onError (Some true)
    parameters (ext w) = (Returned (Some h), e') ->
  exists w',
    getSourceFile (withCaching (host_of b)) fileName languageVersion onError
      flag parameters w = (Returned (Some h), w') /\
    cache w' = <[fileName := h]> (cache w) /\
    forall languageVersion' (onError' : OnError) flag' (parameters' : Extra),
      truthy flag' = false ->
      getSourceFile (withCaching (host_of b)) fileName languageVersion'
        onError' flag' parameters' w' = (Returned (Some h), w').
Proof.
  intros Hflag Hbase.
  destruct (caching_delegates b fileName languageVersion onError flag
              parameters w (or_introl Hflag))
    as (o1 & w' & Hrun & Hcall & _ & Hc & _).
  rewrite Hbase in Hcall. injection Hcall as <- _.
  exists w'. split; [exact Hrun|]. split; [exact Hc|].
  intros lv' onError' flag' parameters' Hflag'.
  apply caching_hit; [done|]. rewrite Hc. apply lookup_insert_eq.
Qed.

(** * Further properties of the versioner *)

(** X8.  After an enumeration through the wrapped program every handle it
    returned carries a version, the text of no file has changed and no file
    has appeared or disappeared; two returned handles without version whose
    texts are equal get equal versions.  When the original enumeration
    throws, the exception is passed on and no file is touched. *)
Theorem versioning_covers_every_returned_file sha256_hex
    (enumerate : Extra -> Call (list handle)) (parameters : Extra)
    (w : World) :
  (forall fs e',
      enumerate parameters (ext w) = (Returned fs, e') ->
      exists w',
        getSourceFiles (withVersioning sha256_hex (program_of enumerate))
          parameters w = (Returned fs, w') /\
        (forall h f', h ∈ fs -> files w' !! h = Some f' ->
                      is_Some (version f')) /\
        (forall h, text <$> files w' !! h = text <$> files w !! h) /\
        (forall h1 h2 f1 f2,
            h1 ∈ fs -> h2 ∈ fs ->
            files w !! h1 = Some f1 -> files w !! h2 = Some f2 ->
            version f1 = None -> version f2 = None -> text f1 = text f2 ->
            files w' !! h1 = files w' !! h2)) /\
  (forall e e',
      enumerate parameters (ext w) = (Thrown e, e') ->
      exists w',
        getSourceFiles (withVersioning sha256_hex (program_of enumerate))
          parameters w = (Thrown e, w') /\
        files w' = files w /\
        trace w' = trace w ++ [EvGetSourceFiles parameters (Thrown e)]).
Proof.
  split.
  - intros fs e' Hret. cbn.
    destruct (extern_returned (EvGetSourceFiles parameters)
                (enumerate parameters) w _ _ Hret)
      as (w1 & Hrun & _ & _ & Hfiles & _).
    destruct (forOf_versionFile sha256_hex fs w1)
      as (w2 & Hloop & Hfiles2 & _).
    exists w2. rewrite (bind_returned _ _ _ _ _ Hrun).
    rewrite (bind_returned _ _ _ _ _ Hloop).
    split; [done|].
    assert (forall h,
      files w2 !! h
      = if decide (h ∈ fs)
        then (fun f => {| text := text f;
                          version := Some (default (sha256_hex (text f))
                                                   (version f)) |})
               <$> files w !! h
        else files w !! h) as Hlook.
    { intros h. by rewrite Hfiles2, Hfiles. }
    split; [|split].
    + intros h f' Hin. rewrite Hlook, decide_True by done.
      destruct (files w !! h) as [f|]; [|done]. intros [= <-]. by eexists.
    + intros h. rewrite Hlook. case_decide; [|done].
      by destruct (files w !! h).
    + intros h1 h2 f1 f2 Hin1 Hin2 Hf1 Hf2 Hv1 Hv2 Htext.
      rewrite !Hlook, !decide_True, Hf1, Hf2 by done. cbn.
      by rewrite Hv1, Hv2, Htext.
  - intros e e' Hthrown. cbn.
    destruct (extern_any (EvGetSourceFiles parameters)
                (enumerate parameters) w)
      as (o & w1 & Hrun & Hcall & Htr & Hfiles & _).
    rewrite Hthrown in Hcall. injection Hcall as <- _.
    exists w1. by rewrite (bind_thrown _ _ _ _ _ Hrun).
Qed.

(** * The augmentations stacked *)

Lemma process_step_frame {A} (inj : A -> Resolution)
    (process : option (string -> Resolution -> Call unit))
    (name : string) (r : option A) (w : World) :
  (forall p, process = Some p -> forall n x, returns (p n x)) ->
  exists w',
    match r, ngcc_of <$> process with
    | Some d, Some processor => processModule processor name (inj d)
    | _, _ => ret tt
    end w = (Returned tt, w') /\
    trace w' = trace w ++ process_events (enabled process) name (inj <$> r) /\
    dependencies w' = dependencies w /\ cache w' = cache w /\
    files w' = files w.
Proof.
  intros Hp. destruct r as [d|]; cbn.
  - destruct process as [p|]; cbn.
    + destruct (Hp p eq_refl name (inj d) (ext w)) as ([] & e' & Hcall).
      destruct (extern_returned (EvProcessModule name (inj d)) _ w _ _ Hcall)
        as (w' & Hrun & Htr & _ & Hfiles & Hd & Hc).
      by exists w'.
    + exists w. by rewrite app_nil_r.
  - exists w. rewrite app_nil_r. by destruct process.
Qed.

Lemma mapM_returned_graph {A B C} (step : A -> M B) (proj : C -> B)
    (evs : A -> C -> list Event)
    (upd : A -> C -> gmap string (gset string) -> gmap string (gset string)) :
  (forall a w, exists c w',
      step a w = (Returned (proj c), w') /\ trace w' = trace w ++ evs a c /\
      dependencies w' = upd a c (dependencies w)) ->
  forall l w, exists cs w',
      mapM step l w = (Returned (proj <$> cs), w') /\
      length cs = length l /\
      trace w' = trace w ++ concat (zip_with evs l cs) /\
      dependencies w'
        = foldl (fun d ac => upd ac.1 ac.2 d) (dependencies w) (zip l cs).
Proof.
  intros Hstep l. induction l as [|a l IH]; intros w.
  - exists [], w. cbn. by rewrite app_nil_r.
  - destruct (Hstep a w) as (c & w1 & Hrun & Htr & Hd).
    destruct (IH w1) as (cs & w2 & Hrest & Hlen & Htr2 & Hd2).
    exists (c :: cs), w2. cbn [mapM].
    rewrite (bind_returned _ _ _ _ _ Hrun), (bind_returned _ _ _ _ _ Hrest).
    split; [reflexivity|]. split; [cbn; by rewrite Hlen|].
    split; [rewrite Htr2, Htr; cbn; by rewrite app_assoc|].
    rewrite Hd2, Hd. done.
Qed.

Lemma foldl_record_targets {C} (proj : C -> option ResolvedModule) p
    (l : list string) (cs : list C) (d : gmap string (gset string)) :
  length cs = length l ->
  foldl (fun d (ac : string * C) =>
           foldl (fun d t => addEdge p t d) d (targets [proj ac.2]))
        d (zip l cs)
  = foldl (fun d t => addEdge p t d) d (targets (proj <$> cs)).
Proof.
  revert cs d. induction l as [|a l IH]; intros [|c cs] d Hlen; try done.
  rewrite fmap_cons.
  change (targets (proj c :: (proj <$> cs)))
    with (targets ([proj c] ++ (proj <$> cs))).
  rewrite targets_app, foldl_app. cbn [zip_with foldl].
  by rewrite IH by (by injection Hlen).
Qed.

(** X9.  The ngcc augmentation applied after dependency collection, on a
    base host without batched module resolver.  The ngcc wrapper finds the
    resolver that dependency collection installed and calls it once per name;
    each name is therefore looked up once with the resolution-cache token
    given to dependency collection -- the token given to the ngcc
    augmentation is not used -- and each resolution is both recorded in the
    graph and handed to [processModule], once. *)
Theorem ngcc_over_dependency_collection (b : BaseHost) process mrcD mrcN names
    containingFile (parameters : ModuleRest) (w : World) p :
  base_resolveModuleNames b = None ->
  (forall n c o m r, returns (tsResolveModuleName n c o m r)) ->
  processor_returns process ->
  normalizePath containingFile = Returned p ->
  exists rs w' delta,
    run_resolveModuleNames
      (withNgcc (withDependencyCollection (host_of b) mrcD)
         (ngcc_of <$> process) mrcN)
      names containingFile parameters w (Returned rs) w' /\
    trace w' = trace w ++ delta /\
    length rs = length names /\
    delta ≫= module_answers = zip names rs /\
    delta ≫= single_lookups = (fun n => (n, mrcD)) <$> names /\
    delta ≫= processed
      = (if enabled process then successes inl names rs else []) /\
    dependencies w'
      = foldl (fun d t => addEdge p t d) (dependencies w) (targets rs).
Proof.
  intros Hb Hts Hp Hnorm.
  destruct (ngcc_installs_modules (withDependencyCollection (host_of b) mrcD)
              (ngcc_of <$> process) mrcN) as [op Hop].
  enough (exists replies w',
    op names containingFile parameters w
      = (Returned (resolvedModule <$> replies), w') /\
    length replies = length names /\
    trace w' = trace w ++
      concat (zip_with
                (ngcc_modules_single_events process containingFile parameters mrcD)
                names replies) /\
    dependencies w'
      = foldl (fun d (ac : string * ResolvedModuleWithFailedLookupLocations) =>
                 foldl (fun d t => addEdge p t d) d
                       (targets [resolvedModule ac.2]))
          (dependencies w) (zip names replies))
    as (replies & w' & Hrun & Hlen & Htr & Hd).
  { eexists (resolvedModule <$> replies), w', _.
    split; [by exists op|]. split; [exact Htr|].
    split; [by rewrite length_fmap|].
    split.
    { read_events (@module_answers Exn CompilerOptions ResolvedProjectReference
                     ModuleResolutionCache OnError Extra)
        (fun (n : string) (located : ResolvedModuleWithFailedLookupLocations) =>
           [(n, resolvedModule located)]).
      by rewrite concat_zip_with_singleton, zip_with_fmap_r. }
    split.
    { read_events (@single_lookups Exn CompilerOptions ResolvedProjectReference
                     ModuleResolutionCache OnError Extra)
        (fun (n : string) (located : ResolvedModuleWithFailedLookupLocations) =>
           [(n, mrcD)]).
      by apply (concat_zip_with_const (fun n : string => (n, mrcD))). }
    split.
    { read_events (@processed Exn CompilerOptions ResolvedProjectReference
                     ModuleResolutionCache OnError Extra)
        (fun (n : string) (located : ResolvedModuleWithFailedLookupLocations) =>
           if enabled process
           then match inl <$> resolvedModule located with
                | Some x => [(n, x)]
                | None => []
                end
           else @nil (string * Resolution)).
      destruct (enabled process);
        [apply successes_enabled|apply (successes_disabled resolvedModule inl)]. }
    rewrite Hd. by apply foldl_record_targets. }
  revert Hop.
  unfold augmentHostWithNgcc, augmentResolveModuleNames,
    augmentHostWithDependencyCollection, host_of.
  cbn. rewrite Hb. cbn.
  destruct (base_resolveTypeReferenceDirectives b); cbn;
    intros [= <-]; cbn beta.
  all: apply (mapM_returned_graph _ resolvedModule
         (ngcc_modules_single_events process containingFile parameters mrcD)
         (fun (_ : string) (located : ResolvedModuleWithFailedLookupLocations)
              d =>
            foldl (fun d t => addEdge p t d) d
                  (targets [resolvedModule located]))).
  all: intros n w0.
  all: destruct (dependencyCollection_lookup_any containingFile parameters
                   mrcD n w0) as (o0 & w1 & Hcall & Hstep & Htr1 & Hd1 & _).
  all: destruct (Hts n containingFile (options parameters) mrcD
                   (redirectedReference parameters) (ext w0))
         as (located & e' & Hret).
  all: rewrite Hret in Hcall; injection Hcall as <- _.
  all: assert (dependencyCollection_lookup containingFile parameters mrcD n w0
               = (Returned (resolvedModule located), w1)) as Hstep'
         by (rewrite Hstep, Hnorm; by destruct (resolvedModule located)).
  all: unfold graph_after in Hd1; rewrite Hnorm in Hd1.
  all: destruct (process_step_frame inl process n (resolvedModule located) w1
                   Hp) as (w2 & Hrun2 & Htr2 & Hd2 & _).
  all: exists located, w2.
  all: split; [|split; [rewrite Htr2, Htr1; by rewrite <- app_assoc
                       |by rewrite Hd2, Hd1]].
  all: erewrite (bind_returned _ _ w0 [resolvedModule located] w1);
         [|by rewrite (bind_returned _ _ _ _ _ Hstep')].
  all: cbn [first]; by rewrite (bind_returned _ _ _ _ _ Hrun2).
Qed.


End Properties.

(** * The claims on the concrete collaborators *)

Import Scenario.

Local Open Scope string_scope.

Local Ltac collaborators_return :=
  cbv [modules_return typerefs_return processor_returns returns]; cbn;
  intros; try simplify_eq; by eexists _, _.

Lemma scenario_toPosix_no_backslash path : hasBackslash (toPosix path) = false.
Proof.
  induction path as [|c path IH]; [done|]. cbn. rewrite IH.
  destruct (Ascii.eqb c backslash) eqn:Hc; [done|]. by rewrite Hc.
Qed.

(** The example of the specification: a host without batched resolver,
    ["pkg-a"] resolves and ["pkg-b"] does not. *)
Example scenario_of_the_specification :
  exists w',
    run_resolveModuleNames
      (augmentHostWithDependencyCollection normalizePath tsResolveModuleName
         (host_of singleHost) (Some 7))
      ["pkg-a"; "pkg-b"] "/src/app.ts" moduleRest start
      (Returned [Some pkg_a; None]) w' /\
    dependencies w' !! "/src/app.ts"
      = Some {[ "/node_modules/pkg-a/index.d.ts" ]}.
Proof.
  eexists. split; [eexists; split; reflexivity|]. by vm_compute.
Qed.

(** Witness of C1: the dependency-collection wrapper over the host with a
    batched resolver, two names. *)
Lemma resolution_results_keep_shape_witness :
  modules_return tsResolveModuleName batchedHost /\
  typerefs_return tsResolveTypeReferenceDirective batchedHost /\
  processor_returns (Some process) /\
  honours_batch batchedHost /\
  (exists p, normalizePath "/src/app.ts" = Returned p) /\
  exists rs w' delta,
    run_resolveModuleNames
      (augmentHostWithDependencyCollection normalizePath tsResolveModuleName
         (host_of batchedHost) (Some 7))
      ["pkg-a"; "pkg-b"] "/src/app.ts" moduleRest start (Returned rs) w' /\
    trace w' = (trace start ++ delta)%list /\
    length rs = 2 /\
    delta ≫= module_answers = zip ["pkg-a"; "pkg-b"] rs.
Proof.
  assert (modules_return tsResolveModuleName batchedHost) as Hm
    by collaborators_return.
  assert (typerefs_return tsResolveTypeReferenceDirective batchedHost) as Ht
    by collaborators_return.
  assert (processor_returns (Some process)) as Hp by collaborators_return.
  assert (honours_batch batchedHost) as Hlen.
  { intros f [= <-] names c r e reply e' [= <- _]. apply length_fmap. }
  assert (exists p, normalizePath "/src/app.ts" = Returned p) as Hnorm
    by (by eexists).
  do 5 (split; [assumption|]).
  destruct (resolution_results_keep_shape normalizePath tsResolveModuleName
              tsResolveTypeReferenceDirective batchedHost (Some process)
              (Some 7) ["pkg-a"; "pkg-b"] "/src/app.ts" moduleRest typeRefRest
              start Hm Ht Hp) as [Hdep _].
  exact (Hdep Hlen Hnorm).
Defined.

(** Witness of C2: a host with the batched module resolver only, one name
    that resolves and one that does not. *)
Lemma ngcc_processes_each_success_once_witness :
  (forall n x, returns (process n x)) /\
  modules_return tsResolveModuleName modulesOnlyHost /\
  exists rs w' delta,
    run_resolveModuleNames
      (augmentHostWithNgcc tsResolveModuleName tsResolveTypeReferenceDirective
         (host_of modulesOnlyHost) (Some (ngcc_of process)) None)
      ["pkg-b"; "pkg-a"] "/src/app.ts" moduleRest start (Returned rs) w' /\
    trace w' = (trace start ++ delta)%list /\
    length rs = 2 /\
    delta ≫= module_answers = zip ["pkg-b"; "pkg-a"] rs /\
    delta ≫= processed = successes inl ["pkg-b"; "pkg-a"] rs.
Proof.
  assert (forall n x, returns (process n x)) as Hp by collaborators_return.
  assert (modules_return tsResolveModuleName modulesOnlyHost) as Hm
    by collaborators_return.
  do 2 (split; [assumption|]).
  destruct (ngcc_processes_each_success_once tsResolveModuleName
              tsResolveTypeReferenceDirective modulesOnlyHost process None
              ["pkg-b"; "pkg-a"] "/src/app.ts" moduleRest typeRefRest
              start Hp) as [Hmod _].
  exact (Hmod Hm).
Defined.

(** Witness of C3: a retrieval of ["a.ts"], then a second one with other
    arguments. *)
Lemma cache_transparency_witness :
  exists w1,
    getSourceFile (augmentHostWithCaching (host_of batchedHost))
      "a.ts" 5 tt None tt start = (Returned (Some 0), w1) /\
    getSourceFile (augmentHostWithCaching (host_of batchedHost))
      "a.ts" 99 tt (Some false) tt w1 = (Returned (Some 0), w1).
Proof.
  eexists. split; [reflexivity|].
  destruct (cache_transparency (ModuleResolutionCache := nat) batchedHost
              "a.ts") as [Hsecond _].
  eapply (Hsecond 5 tt None tt start); reflexivity.
Defined.

(** Witness of C4: the enumeration returns the unversioned file 0 (twice) and
    the versioned file 1. *)
Lemma versioning_is_idempotent_witness :
  enumerate tt (ext start) = (Returned [0; 1; 0], 1) /\
  exists w',
    getSourceFiles (augmentProgramWithVersioning sha256_hex
                      (program_of enumerate)) tt start
      = (Returned [0; 1; 0], w') /\
    files w' !! 0 = Some {| text := "export {}";
                            version := Some "sha256:export {}" |} /\
    files w' !! 1 = Some {| text := "let x"; version := Some "v1" |}.
Proof.
  split; [reflexivity|].
  destruct (versioning_is_idempotent sha256_hex enumerate tt start [0; 1; 0] 1
              eq_refl)
    as (w' & Hrun & _ & _ & Hnew & Hold & _).
  exists w'. split; [exact Hrun|]. split.
  - apply (Hnew 0 {| text := "export {}"; version := None |});
      [apply list_elem_of_here|reflexivity..].
  - apply (Hold 1 {| text := "let x"; version := Some "v1" |} "v1");
      [apply list_elem_of_further, list_elem_of_here|reflexivity..].
Defined.

(** Counterexample to C5 as stated: the batched host resolves ["pkg-w"] to a
    path with Windows separators; the wrapper records that path as it is,
    and it is not a normalized path. *)
Lemma dependency_member_not_normalized :
  exists w',
    run_resolveModuleNames
      (augmentHostWithDependencyCollection normalizePath tsResolveModuleName
         (host_of batchedHost) None)
      ["pkg-w"] "C:\src\app.ts" moduleRest start (Returned [Some pkg_w]) w' /\
    dependencies w' !! "C:/src/app.ts"
      = Some {[ "C:\node_modules\pkg-w\index.d.ts" ]} /\
    ~ normalized normalizePath "C:\node_modules\pkg-w\index.d.ts".
Proof.
  eexists. split; [eexists; split; reflexivity|].
  split; [by vm_compute|].
  intros [q Hq]. injection Hq as Hq.
  pose proof (scenario_toPosix_no_backslash q) as Hno.
  rewrite Hq in Hno. discriminate Hno.
Qed.

(** Witness of C5, as amended: the same call. *)
Lemma dependency_graph_keys_and_members_witness :
  exists w',
    run_resolveModuleNames
      (augmentHostWithDependencyCollection normalizePath tsResolveModuleName
         (host_of batchedHost) None)
      ["pkg-w"] "C:\src\app.ts" moduleRest start (Returned [Some pkg_w]) w' /\
    forall k, is_Some (dependencies w' !! k) -> normalized normalizePath k.
Proof.
  eexists. split; [eexists; split; reflexivity|].
  eapply (dependency_graph_keys_and_members normalizePath tsResolveModuleName
            batchedHost None ["pkg-w"] "C:\src\app.ts" moduleRest start).
  - eexists. split; reflexivity.
  - intros k [s Hk].
    change (dependencies start) with (∅ : gmap string (gset string)) in Hk.
    by rewrite lookup_empty in Hk.
Defined.

(** Counterexample to C6 as stated: the base host resolves the batch, the
    normalizer rejects the containing file, and the caller gets the
    exception instead of the results. *)
Lemma recording_failure_withholds_results :
  batchedModules ["pkg-a"] "" moduleRest (ext start)
    = (Returned [Some pkg_a], 1) /\
  exists w',
    run_resolveModuleNames
      (augmentHostWithDependencyCollection normalizePath_strict
         tsResolveModuleName (host_of batchedHost) None)
      ["pkg-a"] "" moduleRest start (Thrown "malformed path") w'.
Proof.
  split; [reflexivity|]. eexists. eexists. split; reflexivity.
Qed.

(** Witness of C6, as amended: the call of the counterexample, the call on
    a containing file the normalizer accepts, and the fallback path, which
    throws at the second of three names. *)
Lemma recording_failure_reaches_the_caller_witness :
  (exists w',
     run_resolveModuleNames
       (augmentHostWithDependencyCollection normalizePath_strict
          tsResolveModuleName (host_of batchedHost) None)
       ["pkg-a"] "" moduleRest start (Thrown "malformed path") w' /\
     dependencies w' = dependencies start) /\
  (exists w',
     run_resolveModuleNames
       (augmentHostWithDependencyCollection normalizePath_strict
          tsResolveModuleName (host_of batchedHost) None)
       ["pkg-a"] "/src/app.ts" moduleRest start (Returned [Some pkg_a]) w') /\
  (exists o w' delta,
     run_resolveModuleNames
       (augmentHostWithDependencyCollection normalizePath_strict
          tsResolveModuleName (host_of typeRefsOnlyHost) None)
       ["pkg-b"; "pkg-a"; "pkg-b"] "" moduleRest start o w' /\
     trace w' = (trace start ++ delta)%list /\
     dependencies w' = dependencies start /\
     ((o = Returned (replicate 3 None) /\
       delta ≫= module_answers
         = zip ["pkg-b"; "pkg-a"; "pkg-b"] (replicate 3 None)) \/
      (exists k name r,
         ["pkg-b"; "pkg-a"; "pkg-b"] !! k = Some name /\
         o = Thrown "malformed path" /\
         delta ≫= module_answers
           = (zip (take k ["pkg-b"; "pkg-a"; "pkg-b"]) (replicate k None)
              ++ [(name, Some r)])%list))).
Proof.
  split; [|split].
  - destruct (recording_failure_reaches_the_caller normalizePath_strict
                tsResolveModuleName batchedHost None ["pkg-a"] "" moduleRest
                start) as [Hbatched _].
    destruct (Hbatched batchedModules [Some pkg_a] 1 eq_refl eq_refl)
      as (w' & Hrun & Hd).
    exists w'. split; [exact Hrun|]. by apply (Hd "malformed path").
  - destruct (recording_failure_reaches_the_caller normalizePath_strict
                tsResolveModuleName batchedHost None ["pkg-a"] "/src/app.ts"
                moduleRest start) as [Hbatched _].
    destruct (Hbatched batchedModules [Some pkg_a] 1 eq_refl eq_refl)
      as (w' & Hrun & _).
    by exists w'.
  - destruct (recording_failure_reaches_the_caller normalizePath_strict
                tsResolveModuleName typeRefsOnlyHost None
                ["pkg-b"; "pkg-a"; "pkg-b"] "" moduleRest start)
      as [_ Hsingle].
    destruct Hsingle as [_ Hthrown]; [reflexivity|collaborators_return|].
    exact (Hthrown "malformed path" eq_refl).
Defined.

(** Counterexample to C7 as stated: a forced-fresh retrieval on an empty
    cache leaves an entry. *)
Lemma forced_fresh_retrieval_creates_entry :
  cache start !! "a.ts" = None /\
  exists w',
    getSourceFile (augmentHostWithCaching (host_of batchedHost))
      "a.ts" 5 tt (Some true) tt start = (Returned (Some 0), w') /\
    cache w' !! "a.ts" = Some 0.
Proof.
  split; [reflexivity|]. eexists. split; [reflexivity|]. by vm_compute.
Qed.

(** Witness of C7, as amended: the same retrieval. *)
Lemma cache_entry_set_on_every_returned_handle_witness :
  exists w',
    getSourceFile (augmentHostWithCaching (host_of batchedHost))
      "a.ts" 5 tt (Some true) tt start = (Returned (Some 0), w') /\
    cache w' !! "a.ts" = Some 0.
Proof.
  destruct (cache_entry_set_on_every_returned_handle
              (ModuleResolutionCache := nat) batchedHost "a.ts" 5 tt
              (Some true) tt start)
    as (o & w' & Hrun & Hcall & _ & _ & Hentry).
  specialize (Hcall (or_introl eq_refl)).
  injection Hcall as <- _. by exists w'.
Defined.

(** Counterexample to C8 as stated: the fallback for type-reference
    directives looks the name up without the token given to the
    augmentation. *)
Lemma typeref_fallback_drops_cache_token :
  exists rs w' delta,
    run_resolveTypeReferenceDirectives
      (augmentHostWithNgcc tsResolveModuleName tsResolveTypeReferenceDirective
         (host_of singleHost) (Some (ngcc_of process)) (Some 7))
      ["node"] "/src/app.ts" typeRefRest start (Returned rs) w' /\
    trace w' = (trace start ++ delta)%list /\
    delta ≫= single_lookups = [("node", None)] /\
    delta ≫= single_lookups <> [("node", Some 7)].
Proof.
  eexists _, _, _. split; [eexists; split; reflexivity|].
  split; [reflexivity|]. split; [reflexivity|]. discriminate.
Qed.

(** Witness of C8, as amended: the module-name wrapper over a host that
    lacks [resolveModuleNames] only, the type-reference wrapper over a host
    that lacks [resolveTypeReferenceDirectives] only. *)
Lemma fallback_lookups_and_the_cache_token_witness :
  (exists rs w' delta,
     run_resolveModuleNames
       (augmentHostWithNgcc tsResolveModuleName tsResolveTypeReferenceDirective
          (host_of typeRefsOnlyHost) (Some (ngcc_of process)) (Some 7))
       ["pkg-a"; "pkg-b"] "/src/app.ts" moduleRest start (Returned rs) w' /\
     trace w' = (trace start ++ delta)%list /\
     length rs = 2 /\
     delta ≫= single_lookups = [("pkg-a", Some 7); ("pkg-b", Some 7)]) /\
  (exists rs w' delta,
     run_resolveTypeReferenceDirectives
       (augmentHostWithNgcc tsResolveModuleName tsResolveTypeReferenceDirective
          (host_of modulesOnlyHost) (Some (ngcc_of process)) (Some 7))
       ["node"] "/src/app.ts" typeRefRest start (Returned rs) w' /\
     trace w' = (trace start ++ delta)%list /\
     length rs = 1 /\
     delta ≫= single_lookups = [("node", None)]).
Proof.
  split.
  - destruct (fallback_lookups_and_the_cache_token normalizePath
                tsResolveModuleName tsResolveTypeReferenceDirective
                typeRefsOnlyHost (Some process) (Some 7) ["pkg-a"; "pkg-b"]
                "/src/app.ts" moduleRest typeRefRest start) as [Hmod _].
    destruct Hmod as [_ Hngcc]; [reflexivity|collaborators_return|].
    apply Hngcc. collaborators_return.
  - destruct (fallback_lookups_and_the_cache_token normalizePath
                tsResolveModuleName tsResolveTypeReferenceDirective
                modulesOnlyHost (Some process) (Some 7) ["node"]
                "/src/app.ts" moduleRest typeRefRest start) as [_ Htyp].
    apply Htyp; [reflexivity|collaborators_return..].
Defined.

(** Witness of C9: a host with the batched module resolver only, two
    names. *)
Lemma ngcc_splits_batches_into_single_names_witness :
  exists replies w' delta,
    run_resolveModuleNames
      (augmentHostWithNgcc tsResolveModuleName tsResolveTypeReferenceDirective
         (host_of modulesOnlyHost) (Some (ngcc_of process)) None)
      ["pkg-a"; "pkg-b"] "/src/app.ts" moduleRest start
      (Returned (first <$> replies)) w' /\
    trace w' = (trace start ++ delta)%list /\
    length replies = 2 /\
    delta ≫= module_batches
      = zip_with (fun n reply => ([n], "/src/app.ts", moduleRest, reply))
          ["pkg-a"; "pkg-b"] replies.
Proof.
  destruct (ngcc_splits_batches_into_single_names tsResolveModuleName
              tsResolveTypeReferenceDirective modulesOnlyHost (Some process)
              None ["pkg-a"; "pkg-b"] "/src/app.ts" moduleRest typeRefRest
              start) as [Hmod _]; [collaborators_return|].
  destruct (Hmod batchedModules eq_refl)
    as (replies & w' & delta & Hrun & Htr & Hlen & Hb & _);
    [collaborators_return|].
  by exists replies, w', delta.
Defined.

(** Witness of C10: after ["a.ts"] was cached, two retrievals that differ in
    every other argument. *)
Lemma cache_hit_ignores_other_arguments_witness :
  exists w1,
    getSourceFile (augmentHostWithCaching (host_of batchedHost))
      "a.ts" 5 tt None tt start = (Returned (Some 0), w1) /\
    getSourceFile (augmentHostWithCaching (host_of batchedHost))
      "a.ts" 5 tt None tt w1 = (Returned (Some 0), w1) /\
    getSourceFile (augmentHostWithCaching (host_of batchedHost))
      "a.ts" 99 tt (Some false) tt w1 = (Returned (Some 0), w1).
Proof.
  eexists. split; [reflexivity|].
  eapply (cache_hit_ignores_other_arguments batchedHost "a.ts" 0);
    [by vm_compute|reflexivity..].
Defined.

(** Witness of X1: the edge recorded earlier is still there after a call
    that records another one. *)
Lemma dependency_graph_only_grows_witness :
  exists w' s',
    run_resolveModuleNames
      (augmentHostWithDependencyCollection normalizePath tsResolveModuleName
         (host_of singleHost) None)
      ["pkg-a"] "/src/app.ts" moduleRest later (Returned [Some pkg_a]) w' /\
    dependencies w' !! "/src/app.ts" = Some s' /\
    {[ "/src/util.ts" ]} ⊆ s'.
Proof.
  assert (exists w',
    run_resolveModuleNames
      (augmentHostWithDependencyCollection normalizePath tsResolveModuleName
         (host_of singleHost) None)
      ["pkg-a"] "/src/app.ts" moduleRest later (Returned [Some pkg_a]) w')
    as [w' Hrun] by (eexists; eexists; split; reflexivity).
  destruct (dependency_graph_only_grows normalizePath tsResolveModuleName
              singleHost None ["pkg-a"] "/src/app.ts" moduleRest later
              _ w' "/src/app.ts" {[ "/src/util.ts" ]} Hrun)
    as (s' & Hs' & Hsub); [by vm_compute|].
  by exists w', s'.
Defined.

(** Witness of X2: ["pkg-a"] resolves and its file is recorded. *)
Lemma successful_resolutions_are_recorded_witness :
  exists w' p s,
    run_resolveModuleNames
      (augmentHostWithDependencyCollection normalizePath tsResolveModuleName
         (host_of singleHost) None)
      ["pkg-a"; "pkg-b"] "/src/app.ts" moduleRest start
      (Returned [Some pkg_a; None]) w' /\
    normalizePath "/src/app.ts" = Returned p /\
    dependencies w' !! p = Some s /\
    "/node_modules/pkg-a/index.d.ts" ∈ s.
Proof.
  assert (exists w',
    run_resolveModuleNames
      (augmentHostWithDependencyCollection normalizePath tsResolveModuleName
         (host_of singleHost) None)
      ["pkg-a"; "pkg-b"] "/src/app.ts" moduleRest start
      (Returned [Some pkg_a; None]) w')
    as [w' Hrun] by (eexists; eexists; split; reflexivity).
  destruct (successful_resolutions_are_recorded normalizePath
              tsResolveModuleName singleHost None ["pkg-a"; "pkg-b"]
              "/src/app.ts" moduleRest start _ w' Hrun) as [Hreturned _].
  destruct (Hreturned [Some pkg_a; None] pkg_a eq_refl
              ltac:(apply list_elem_of_here)) as (p & s & Hp & Hs & Hin).
  by exists w', p, s.
Defined.

(** Witness of X3: resolving ["pkg-a"] twice in one batch or once. *)
Lemma dependency_graph_ignores_order_and_repeats_witness :
  exists w1' w2',
    run_resolveModuleNames
      (augmentHostWithDependencyCollection normalizePath tsResolveModuleName
         (host_of singleHost) None)
      ["pkg-a"; "pkg-a"] "/src/app.ts" moduleRest start
      (Returned [Some pkg_a; Some pkg_a]) w1' /\
    run_resolveModuleNames
      (augmentHostWithDependencyCollection normalizePath tsResolveModuleName
         (host_of batchedHost) None)
      ["pkg-a"] "/src/app.ts" moduleRest start (Returned [Some pkg_a]) w2' /\
    dependencies w1' = dependencies w2'.
Proof.
  eexists _, _.
  split; [eexists; split; reflexivity|].
  split; [eexists; split; reflexivity|].
  eapply (dependency_graph_ignores_order_and_repeats normalizePath
            tsResolveModuleName singleHost batchedHost None None
            ["pkg-a"; "pkg-a"] ["pkg-a"] "/src/app.ts" moduleRest moduleRest
            start start).
  - eexists. split; reflexivity.
  - eexists. split; reflexivity.
  - reflexivity.
  - reflexivity.
  - reflexivity.
  - apply set_eq. intros x. rewrite !elem_of_list_to_set. cbn.
    rewrite !elem_of_cons. tauto.
Defined.

(** Witness of X4: dependency collection applied after the ngcc
    augmentation. *)
Lemma dependency_collection_over_any_resolver_witness :
  exists w',
    run_resolveModuleNames
      (augmentHostWithDependencyCollection normalizePath tsResolveModuleName
         (augmentHostWithNgcc tsResolveModuleName
            tsResolveTypeReferenceDirective (host_of batchedHost)
            (Some (ngcc_of process)) None)
         None)
      ["pkg-a"; "pkg-b"] "/src/app.ts" moduleRest start
      (Returned [Some pkg_a; None]) w' /\
    dependencies w' !! "/src/app.ts"
      = Some {[ "/node_modules/pkg-a/index.d.ts" ]}.
Proof.
  epose proof (dependency_collection_over_any_resolver normalizePath
                 tsResolveModuleName
                 (augmentHostWithNgcc tsResolveModuleName
                    tsResolveTypeReferenceDirective (host_of batchedHost)
                    (Some (ngcc_of process)) None)
                 _ None ["pkg-a"; "pkg-b"] "/src/app.ts" moduleRest start _ _
                 eq_refl eq_refl)
    as (w' & Hrun & _ & _ & _ & _ & Hd & _).
  exists w'. split; [exact Hrun|]. rewrite Hd. by vm_compute.
Defined.

(** Witness of X5: the batched host, no processor. *)
Lemma ngcc_without_processor_only_resolves_witness :
  exists rs w' delta,
    run_resolveModuleNames
      (augmentHostWithNgcc tsResolveModuleName tsResolveTypeReferenceDirective
         (host_of batchedHost) None (Some 7))
      ["pkg-a"; "pkg-b"] "/src/app.ts" moduleRest start (Returned rs) w' /\
    trace w' = (trace start ++ delta)%list /\
    length rs = 2 /\
    delta ≫= module_answers = zip ["pkg-a"; "pkg-b"] rs /\
    delta ≫= processed = [].
Proof.
  destruct (ngcc_without_processor_only_resolves tsResolveModuleName
              tsResolveTypeReferenceDirective batchedHost (Some 7)
              ["pkg-a"; "pkg-b"] "/src/app.ts" moduleRest typeRefRest start)
    as [Hmod _]; [collaborators_return..|].
  exact Hmod.
Defined.

(** Witness of X6: ["missing.ts"] does not exist. *)
Lemma cache_keeps_failures_out_witness :
  exists w',
    getSourceFile (augmentHostWithCaching (host_of batchedHost))
      "missing.ts" 5 tt None tt start = (Returned None, w') /\
    cache w' = cache start.
Proof.
  destruct (cache_keeps_failures_out (ModuleResolutionCache := nat)
              batchedHost "missing.ts" 5 tt None tt start (Returned None) 1)
    as (w' & Hrun & Hcache & _);
    [by right|reflexivity|by left|].
  by exists w'.
Defined.

(** Witness of X7: ["a.ts"] is cached as 40; a forced-fresh retrieval reads
    the file anew. *)
Lemma forced_fresh_retrieval_refreshes_the_cache_witness :
  cache later !! "a.ts" = Some 40 /\
  exists w',
    getSourceFile (augmentHostWithCaching (host_of batchedHost))
      "a.ts" 5 tt (Some true) tt later = (Returned (Some 3), w') /\
    getSourceFile (augmentHostWithCaching (host_of batchedHost))
      "a.ts" 5 tt None tt w' = (Returned (Some 3), w').
Proof.
  split; [by vm_compute|].
  destruct (forced_fresh_retrieval_refreshes_the_cache
              (ModuleResolutionCache := nat) batchedHost "a.ts" 5 tt
              (Some true) tt later 3 4 eq_refl eq_refl)
    as (w' & Hrun & _ & Hnext).
  exists w'. split; [exact Hrun|]. by apply Hnext.
Defined.

(** Witness of X8: the enumeration of the two source files. *)
Lemma versioning_covers_every_returned_file_witness :
  exists w',
    getSourceFiles (augmentProgramWithVersioning sha256_hex
                      (program_of enumerate)) tt start
      = (Returned [0; 1; 0], w') /\
    forall h f', h ∈ [0; 1; 0] -> files w' !! h = Some f' ->
                 is_Some (version f').
Proof.
  destruct (versioning_covers_every_returned_file sha256_hex enumerate tt
              start) as [Hreturned _].
  destruct (Hreturned [0; 1; 0] 1 eq_refl) as (w' & Hrun & Hall & _).
  by exists w'.
Defined.

(** Witness of X9: dependency collection with token 1, then ngcc with
    token 2. *)
Lemma ngcc_over_dependency_collection_witness :
  exists rs w' delta,
    run_resolveModuleNames
      (augmentHostWithNgcc tsResolveModuleName tsResolveTypeReferenceDirective
         (augmentHostWithDependencyCollection normalizePath
            tsResolveModuleName (host_of singleHost) (Some 1))
         (Some (ngcc_of process)) (Some 2))
      ["pkg-a"; "pkg-b"] "/src/app.ts" moduleRest start (Returned rs) w' /\
    trace w' = (trace start ++ delta)%list /\
    delta ≫= single_lookups = [("pkg-a", Some 1); ("pkg-b", Some 1)] /\
    delta ≫= processed = successes inl ["pkg-a"; "pkg-b"] rs.
Proof.
  destruct (ngcc_over_dependency_collection normalizePath tsResolveModuleName
              tsResolveTypeReferenceDirective singleHost (Some process)
              (Some 1) (Some 2) ["pkg-a"; "pkg-b"] "/src/app.ts" moduleRest
              start "/src/app.ts" eq_refl)
    as (rs & w' & delta & Hrun & Htr & _ & _ & Hlook & Hproc & _);
    [collaborators_return..|reflexivity|].
  by exists rs, w', delta.
Defined.
